(** * zep_python.models: the entity classes and their (de)serialisation

    The module [zep_python/models.py] declares eight pydantic classes
    ([Session], [Summary], [Message], [Memory], [MemorySearchPayload],
    [MemorySearchResult], [Document], [DocumentCollection]).  Each class is a
    list of annotated fields, some with a [Field(...)] default; construction
    (calling the class on keyword arguments) and serialisation
    ([self.dict()], which every [to_dict] method returns) are inherited from
    [pydantic.BaseModel].

    The development has three layers:
    - [Py]: the Python objects that reach these classes and the builtin
      conversions the field validators call;
    - [Pydantic]: the part of pydantic's [BaseModel] (1.x line: [.dict()],
      annotation-only [Optional] fields default to [None]) that the classes
      rely on: field validation, [validate_model], [dict];
    - [Models]: the eight classes, field by field as in the source. *)

From Stdlib Require Import ZArith Ascii String Floats.
From stdpp Require Import gmap strings list fin_maps pretty.

Set Warnings "-register-all".
Local Open Scope Z_scope.

(** ** Python objects *)

Module Py.

(** The objects that can be held by a field or sit in an input mapping: the
    JSON-compatible values ([None], [bool], [int], [float], [str], [list],
    [dict] with string keys) and instances of the model classes, given by
    their class name and their [__dict__]. *)
Inductive value :=
| VNone
| VBool (b : bool)
| VInt (z : Z)
| VFloat (f : float)
| VStr (s : string)
| VList (l : list value)
| VDict (d : gmap string value)
| VModel (cls : string) (attrs : gmap string value).

(** A model instance on its own. *)
Record instance := Instance { cls : string; attrs : gmap string value }.

Definition as_object (e : instance) : value := VModel (cls e) (attrs e).

(** Outcome of a conversion or of a validation.  [Invalid] carries what
    pydantic's [ValidationError] carries.  [Unmodelled] marks inputs whose
    treatment depends on something left outside this development (the text
    form of a float, non-ASCII digits, interpreter limits on very long
    numerals, [dict()] applied to a sequence of pairs); nothing is claimed
    about them. *)
Inductive result (E A : Type) :=
| Ok (a : A)
| Invalid (e : E)
| Unmodelled.
Arguments Ok {E A} a.
Arguments Invalid {E A} e.
Arguments Unmodelled {E A}.

Definition rmap {E A B} (f : A → B) (r : result E A) : result E B :=
  match r with
  | Ok a => Ok (f a)
  | Invalid e => Invalid e
  | Unmodelled => Unmodelled
  end.

(** *** Builtin conversions *)

(** The exceptions the validators catch. *)
Inductive exn := TypeError | ValueError | OverflowError.

(** Longest numeral for which [int(str)] and [str(int)] behave the same in
    every interpreter and pydantic release ([max_str_int]). *)
Definition max_str_int : nat := 4300.

Definition code (c : ascii) : nat := nat_of_ascii c.

Definition is_space (c : ascii) : bool :=
  ((9 <=? code c)%nat && (code c <=? 13)%nat) || (code c =? 32)%nat.

Definition digit_of (c : ascii) : option Z :=
  if ((48 <=? code c)%nat && (code c <=? 57)%nat)
  then Some (Z.of_nat (code c - 48)) else None.

(** Bytes for which the answer of [int(str)] is not fixed here: beyond ASCII
    (other scripts have digits and spaces of their own) and the separators
    0x1c..0x1f. *)
Definition outside_ascii_text (c : ascii) : bool :=
  (128 <=? code c)%nat || ((28 <=? code c)%nat && (code c <=? 31)%nat).

Fixpoint drop_spaces (l : list ascii) : list ascii :=
  match l with
  | c :: l' => if is_space c then drop_spaces l' else l
  | [] => []
  end.

Definition strip (l : list ascii) : list ascii :=
  reverse (drop_spaces (reverse (drop_spaces l))).

(** Decimal digits, single underscores allowed between two digits. *)
Fixpoint digits (acc : Z) (after_digit : bool) (l : list ascii) : option Z :=
  match l with
  | [] => if after_digit then Some acc else None
  | c :: l' =>
      match digit_of c with
      | Some d => digits (10 * acc + d) true l'
      | None =>
          if Ascii.eqb c "_"%char && after_digit then digits acc false l'
          else None
      end
  end.

Definition signed_digits (l : list ascii) : option Z :=
  match l with
  | c :: l' =>
      if Ascii.eqb c "-"%char then Z.opp <$> digits 0 false l'
      else if Ascii.eqb c "+"%char then digits 0 false l'
      else digits 0 false l
  | [] => None
  end.

(** [int(s)] for a string [s], base 10. *)
Definition int_of_str (s : string) : result exn Z :=
  let l := list_ascii_of_string s in
  if (max_str_int <? length l)%nat then Unmodelled
  else if existsb outside_ascii_text l then Unmodelled
  else match signed_digits (strip l) with
       | Some z => Ok z
       | None => Invalid ValueError
       end.

(** [str(z)] for an integer [z]. *)
Definition str_of_int (z : Z) : result exn string :=
  if Z.abs z <? 10 ^ Z.of_nat max_str_int then Ok (pretty z) else Unmodelled.

(** [str(b)] for a boolean. *)
Definition str_of_bool (b : bool) : string :=
  if b then "True" else "False".

(** [int(f)] for a float [f]: truncation towards zero; infinities and NaN
    raise. *)
Definition int_of_float (f : float) : result exn Z :=
  match Prim2SF f with
  | S754_zero _ => Ok 0
  | S754_infinity _ => Invalid OverflowError
  | S754_nan => Invalid ValueError
  | S754_finite s m e =>
      let mag := if 0 <=? e then Z.pos m * 2 ^ e else Z.pos m / 2 ^ (- e) in
      Ok (if s then - mag else mag)
  end.

(** [float(z)] for an integer [z]: the nearest double, ties to even.  An
    integer beyond the range of doubles raises [OverflowError], which the
    float validator does not catch: left outside. *)
Definition float_of_int (z : Z) : result exn float :=
  match binary_normalize prec emax z 0 false with
  | S754_infinity _ => Unmodelled
  | sf => Ok (SF2Prim sf)
  end.

Definition lower (c : ascii) : ascii :=
  if ((65 <=? code c)%nat && (code c <=? 90)%nat)
  then ascii_of_nat (code c + 32) else c.

Fixpoint str_lower (s : string) : string :=
  match s with
  | EmptyString => EmptyString
  | String c s' => String (lower c) (str_lower s')
  end.

Definition str_in (s : string) (l : list string) : bool :=
  existsb (String.eqb s) l.

Definition BOOL_FALSE : list string := ["0"; "off"; "f"; "false"; "n"; "no"].
Definition BOOL_TRUE : list string := ["1"; "on"; "t"; "true"; "y"; "yes"].

(** [dict(v)]: a mapping is taken as it is; a model instance iterates over
    the pairs of its [__dict__]; an empty sequence gives the empty mapping; a
    non-empty string yields one-character items, which are not pairs; scalars
    are not iterable. *)
Definition dict_of (v : value) : result exn (gmap string value) :=
  match v with
  | VDict d => Ok d
  | VModel _ attrs => Ok attrs
  | VList [] => Ok ∅
  | VList (_ :: _) => Unmodelled
  | VStr EmptyString => Ok ∅
  | VStr (String _ _) => Invalid ValueError
  | VNone | VBool _ | VInt _ | VFloat _ => Invalid TypeError
  end.

(** No model instance at any depth: the value is made of JSON-compatible
    parts only. *)
Fixpoint plain (v : value) : bool :=
  match v with
  | VList l => forallb plain l
  | VDict d => map_fold (λ _ x acc, plain x && acc) true d
  | VModel _ _ => false
  | _ => true
  end.

Definition plain_map (d : gmap string value) : bool :=
  map_fold (λ _ x acc, plain x && acc) true d.

(** Size of a value, for induction through the nested containers. *)
Fixpoint vsize (v : value) : nat :=
  match v with
  | VList l => S (foldr (λ x acc, vsize x + acc)%nat 0%nat l)
  | VDict d => S (map_fold (λ _ x acc, vsize x + acc)%nat 0%nat d)
  | VModel _ a => S (map_fold (λ _ x acc, vsize x + acc)%nat 0%nat a)
  | _ => 1%nat
  end.

End Py.

(** ** The part of pydantic's BaseModel the classes rely on

    The classes use the 1.x interface: they serialise with [self.dict()] and
    leave [Optional] fields without a default, which 1.x reads as: not
    required, [None] when absent.  Names follow pydantic's own
    ([validators.py], [fields.py], [main.py]). *)

Module Pydantic.
Import Py.

(** *** Errors ([pydantic.errors]) *)

Inductive error_kind :=
| MissingError            (* field required *)
| NoneIsNotAllowedError   (* none is not an allowed value *)
| StrError                (* str type expected *)
| IntegerError            (* value is not a valid integer *)
| FloatError              (* value is not a valid float *)
| BoolError               (* value could not be parsed to a boolean *)
| ListError               (* value is not a valid list *)
| DictError.              (* value is not a valid dict *)

(** Where an error sits: field names and mapping keys, list positions. *)
Inductive loc_item := LName (s : string) | LIndex (i : nat).

Definition error : Type := list loc_item * error_kind.

(** What [ValidationError] carries: every error of every field. *)
Abbreviation outcome := (result (list error)).

Definition raise {A} (k : error_kind) : outcome A := Invalid [([], k)].

(** [try: ... except (TypeError, ValueError, ...): raise k]. *)
Definition catch {A} (k : error_kind) (r : result exn A) : outcome A :=
  match r with
  | Ok a => Ok a
  | Invalid _ => raise k
  | Unmodelled => Unmodelled
  end.

Definition at_loc {A} (i : loc_item) (r : outcome A) : outcome A :=
  match r with
  | Invalid es => Invalid ((λ e : error, (i :: e.1, e.2)) <$> es)
  | _ => r
  end.

Definition bind {A B} (r : outcome A) (k : A → outcome B) : outcome B :=
  match r with
  | Ok a => k a
  | Invalid e => Invalid e
  | Unmodelled => Unmodelled
  end.

(** Two validations side by side: the errors of both are reported. *)
Definition both {A B C} (f : A → B → C)
    (ra : outcome A) (rb : outcome B) : outcome C :=
  match ra, rb with
  | Ok a, Ok b => Ok (f a b)
  | Unmodelled, _ | _, Unmodelled => Unmodelled
  | Invalid e1, Invalid e2 => Invalid (e1 ++ e2)
  | Invalid e, Ok _ | Ok _, Invalid e => Invalid e
  end.

(** *** Validators of the field types ([pydantic.validators]) *)

Definition str_validator (v : value) : outcome value :=
  match v with
  | VStr _ => Ok v
  | VInt z => rmap VStr (catch StrError (str_of_int z))
  | VBool b => Ok (VStr (str_of_bool b))
  | VFloat _ => Unmodelled
  | _ => raise StrError
  end.

Definition int_validator (v : value) : outcome value :=
  match v with
  | VInt _ => Ok v
  | VBool b => Ok (VInt (if b then 1 else 0))
  | VStr s => rmap VInt (catch IntegerError (int_of_str s))
  | VFloat f => rmap VInt (catch IntegerError (int_of_float f))
  | _ => raise IntegerError
  end.

Definition float_validator (v : value) : outcome value :=
  match v with
  | VFloat _ => Ok v
  | VInt z => rmap VFloat (catch FloatError (float_of_int z))
  | VBool b => Ok (VFloat (if b then 1 else 0)%float)
  | VStr _ => Unmodelled
  | _ => raise FloatError
  end.

Definition bool_validator (v : value) : outcome value :=
  match v with
  | VBool _ => Ok v
  | VInt z =>
      if z =? 1 then Ok (VBool true)
      else if z =? 0 then Ok (VBool false) else raise BoolError
  | VFloat f =>
      if PrimFloat.eqb f 1 then Ok (VBool true)
      else if PrimFloat.eqb f 0 then Ok (VBool false) else raise BoolError
  | VStr s =>
      if str_in (str_lower s) BOOL_TRUE then Ok (VBool true)
      else if str_in (str_lower s) BOOL_FALSE then Ok (VBool false)
      else raise BoolError
  | _ => raise BoolError
  end.

Definition list_validator (v : value) : outcome (list value) :=
  match v with
  | VList l => Ok l
  | _ => raise ListError
  end.

Definition dict_validator (v : value) : outcome (gmap string value) :=
  catch DictError (dict_of v).

(** *** Field declarations *)

(** The default of a field: none given, a value ([Field(v)],
    [Field(default=v)], [= v]) or a factory ([Field(default_factory=f)]). *)
Inductive default :=
| Undefined
| Default (v : value)
| DefaultFactory (factory : unit → value).

Record field_of (T : Type) := Field {
  fname : string;
  annotation : T;
  dflt : default;
}.
Arguments Field {T} fname annotation dflt.
Arguments fname {T} f.
Arguments annotation {T} f.
Arguments dflt {T} f.

(** The annotations in use: [Any], [str], [int], [float], [bool],
    [Optional[t]], [List[t]], [Dict[str, t]] and a model class. *)
Inductive ftype :=
| TAny
| TStr
| TInt
| TFloat
| TBool
| TOptional (t : ftype)
| TList (t : ftype)
| TDict (t : ftype)
| TModel (name : string) (fields : list (field_of ftype)).

Abbreviation field := (field_of ftype).

Record model := Model {
  model_name : string;
  model_fields : list field;
}.

(** A model class used as an annotation. *)
Definition T (M : model) : ftype := TModel (model_name M) (model_fields M).

Definition accepts_none (t : ftype) : bool :=
  match t with TOptional _ | TAny => true | _ => false end.

(** A field is required when it has no default and its annotation is
    neither [Optional] nor [Any]. *)
Definition required (f : field) : bool :=
  match dflt f with
  | Undefined => negb (accepts_none (annotation f))
  | _ => false
  end.

(** [None] is let through for [Optional] and [Any] annotations and for
    fields whose default is [None]. *)
Definition allow_none (f : field) : bool :=
  accepts_none (annotation f) ||
  match dflt f with Default VNone => true | _ => false end.

(** [ModelField.get_default]: a fresh copy of the default, or the factory's
    result. *)
Definition get_default (f : field) : value :=
  match dflt f with
  | Undefined => VNone
  | Default v => v
  | DefaultFactory factory => factory ()
  end.

(** The [dict] type used as a factory. *)
Definition dict_type (_ : unit) : value := VDict ∅.

(** *** Validation *)

Definition not_none (v : value) (r : outcome value) : outcome value :=
  match v with
  | VNone => raise NoneIsNotAllowedError
  | _ => r
  end.

Fixpoint validate_items (f : value → outcome value) (i : nat) (l : list value)
    : outcome (list value) :=
  match l with
  | [] => Ok []
  | x :: l' => both cons (at_loc (LIndex i) (f x)) (validate_items f (S i) l')
  end.

Definition validate_values (f : value → outcome value)
    (d : gmap string value) : outcome (gmap string value) :=
  map_fold (λ k x acc, both (insert k) (at_loc (LName k) (f x)) acc) (Ok ∅) d.

(** One field of [validate_model]: a missing key is an error for a required
    field and is filled with the default, unvalidated, otherwise; a given
    value goes through the validators of the annotation. *)
Definition validate_field (vt : ftype → value → outcome value)
    (f : field) (data : gmap string value) : outcome value :=
  match data !! fname f with
  | None =>
      if required f then at_loc (LName (fname f)) (raise MissingError)
      else Ok (get_default f)
  | Some VNone =>
      at_loc (LName (fname f))
        (if allow_none f then Ok VNone else vt (annotation f) VNone)
  | Some v => at_loc (LName (fname f)) (vt (annotation f) v)
  end.

(** [validate_model]: every declared field in turn; keys of [data] that name
    no field are ignored ([Config.extra = ignore]). *)
Definition validate_model (vt : ftype → value → outcome value)
    (fields : list field) (data : gmap string value)
    : outcome (gmap string value) :=
  foldr (λ f acc, both (insert (fname f)) (validate_field vt f data) acc)
        (Ok ∅) fields.

(** [ModelField.validate] by annotation.  For a model class
    ([BaseModel.validate]): an instance of the class is taken as it is
    (copied), anything else is turned into a mapping and passed to the
    class. *)
Fixpoint validate (t : ftype) (v : value) {struct t} : outcome value :=
  match t with
  | TAny => Ok v
  | TOptional t' =>
      match v with
      | VNone => Ok VNone
      | _ => validate t' v
      end
  | TStr => not_none v (str_validator v)
  | TInt => not_none v (int_validator v)
  | TFloat => not_none v (float_validator v)
  | TBool => not_none v (bool_validator v)
  | TList t' =>
      not_none v
        (bind (list_validator v) (λ l,
           rmap VList (validate_items (validate t') 0 l)))
  | TDict t' =>
      not_none v
        (bind (dict_validator v) (λ d,
           rmap VDict (validate_values (validate t') d)))
  | TModel name fields =>
      not_none v
        (match v with
         | VModel c a =>
             if String.eqb c name then Ok v
             else rmap (VModel name) (validate_model validate fields a)
         | _ =>
             bind (dict_validator v) (λ d,
               rmap (VModel name) (validate_model validate fields d))
         end)
  end.

(** Calling the class on the keyword arguments [data]. *)
Definition construct (M : model) (data : gmap string value)
    : outcome instance :=
  rmap (Instance (model_name M)) (validate_model validate (model_fields M) data).

(** *** Serialisation *)

(** [BaseModel._get_value] with [to_dict=True]: nested instances become
    mappings, lists and mappings are rebuilt element by element. *)
Fixpoint get_value (v : value) : value :=
  match v with
  | VList l => VList (get_value <$> l)
  | VDict d => VDict (get_value <$> d)
  | VModel _ a => VDict (get_value <$> a)
  | _ => v
  end.

(** [BaseModel.dict]: every field of the instance, defaults and [None]
    included. *)
Definition dict (self : instance) : gmap string value :=
  get_value <$> attrs self.

End Pydantic.

(** ** The classes of zep_python/models.py *)

Module Models.
Import Py Pydantic.

(** Keyword [optional=True] of [Field(optional=True, default=None)] is not
    one pydantic knows: it is kept as extra information on the field and
    changes nothing.  [description=...] is documentation. *)

Definition Session : model := Model "Session" [
  Field "uuid" (TOptional TStr) Undefined;
  Field "created_at" (TOptional TStr) Undefined;
  Field "updated_at" (TOptional TStr) Undefined;
  Field "deleted_at" (TOptional TStr) Undefined;
  Field "session_id" TStr Undefined;
  Field "metadata" (TDict TAny) Undefined
].

Definition Summary : model := Model "Summary" [
  Field "uuid" TStr (Default (VStr "A uuid is required"));
  Field "created_at" TStr (Default (VStr "A created_at is required"));
  Field "content" TStr (Default (VStr "Content is required"));
  Field "recent_message_uuid" TStr
    (Default (VStr "A recent_message_uuid is required"));
  Field "token_count" TInt (Default (VStr "A token_count is required"))
].

Definition Message : model := Model "Message" [
  Field "role" TStr (Default (VStr "A role is required"));
  Field "content" TStr (Default (VStr "Content is required"));
  Field "uuid" (TOptional TStr) (Default VNone);
  Field "created_at" (TOptional TStr) (Default VNone);
  Field "token_count" (TOptional TInt) (Default VNone);
  Field "metadata" (TOptional (TDict TAny)) (Default VNone)
].

Definition Memory : model := Model "Memory" [
  Field "messages" (TList (T Message)) (Default (VList []));
  Field "metadata" (TOptional (TDict TAny)) (Default VNone);
  Field "summary" (TOptional (T Summary)) (Default VNone);
  Field "uuid" (TOptional TStr) (Default VNone);
  Field "created_at" (TOptional TStr) (Default VNone);
  Field "token_count" (TOptional TInt) (Default VNone)
].

Definition MemorySearchPayload : model := Model "MemorySearchPayload" [
  Field "text" TStr (Default (VStr "A text is required"));
  Field "metadata" (TOptional (TDict TAny)) (Default VNone)
].

Definition MemorySearchResult : model := Model "MemorySearchResult" [
  Field "message" (TOptional (TDict TAny)) (Default VNone);
  Field "metadata" (TOptional (TDict TAny)) (Default VNone);
  Field "summary" (TOptional TStr) (Default VNone);
  Field "dist" (TOptional TFloat) (Default VNone)
].

Definition Document : model := Model "Document" [
  Field "uuid" (TOptional TStr) (Default VNone);
  Field "created_at" (TOptional TStr) Undefined;
  Field "updated_at" (TOptional TStr) Undefined;
  Field "deleted_at" (TOptional TStr) Undefined;
  Field "document_id" (TOptional TStr) Undefined;
  Field "content" (TOptional TStr) Undefined;
  Field "metadata" (TOptional (TDict TAny)) (DefaultFactory dict_type);
  Field "embedding" (TOptional (TList TFloat)) Undefined
].

Definition DocumentCollection : model := Model "DocumentCollection" [
  Field "created_at" (TOptional TStr) Undefined;
  Field "updated_at" (TOptional TStr) Undefined;
  Field "deleted_at" (TOptional TStr) Undefined;
  Field "name" TStr Undefined;
  Field "description" (TOptional TStr) Undefined;
  Field "metadata" (TOptional (TDict TAny)) (DefaultFactory dict_type);
  Field "embedding_model_name" (TOptional TStr) Undefined;
  Field "embedding_dimensions" (TOptional TInt) Undefined;
  Field "distance_function" (TOptional TStr) Undefined;
  Field "is_normalized" (TOptional TBool) Undefined
].

(** The [to_dict] methods: each returns [self.dict()]. *)
Definition Summary_to_dict (self : instance) : gmap string value := dict self.
Definition Message_to_dict (self : instance) : gmap string value := dict self.
Definition Memory_to_dict (self : instance) : gmap string value := dict self.
Definition Document_to_dict (self : instance) : gmap string value := dict self.
Definition DocumentCollection_to_dict (self : instance)
    : gmap string value := dict self.

(** The entity types. *)
Definition entities : list model :=
  [Session; Message; Summary; Memory; MemorySearchPayload;
   MemorySearchResult; Document; DocumentCollection].

End Models.

(** ** Vocabulary of the laws *)

Module Wire.
Import Py Pydantic.

Definition map_forallb {A} (p : string → A → bool) (d : gmap string A)
    : bool :=
  map_fold (λ k x acc, p k x && acc) true d.

Definition field_names (fields : list field) : list string :=
  fname <$> fields.

(** [valid t v]: [v] is a value of the annotation [t] made of wire data: a
    scalar of the annotated type, [None] only under [Optional] (or [Any]),
    lists and mappings of valid items, JSON-compatible data under [Any], and
    for a model class an instance of that class holding a valid value for
    each declared field and nothing else. *)
Fixpoint valid (t : ftype) (v : value) {struct t} : bool :=
  match t with
  | TAny => plain v
  | TStr => match v with VStr _ => true | _ => false end
  | TInt => match v with VInt _ => true | _ => false end
  | TFloat => match v with VFloat _ => true | _ => false end
  | TBool => match v with VBool _ => true | _ => false end
  | TOptional t' => match v with VNone => true | _ => valid t' v end
  | TList t' => match v with VList l => forallb (valid t') l | _ => false end
  | TDict t' =>
      match v with
      | VDict d => map_forallb (λ _, valid t') d
      | _ => false
      end
  | TModel name fields =>
      match v with
      | VModel c a =>
          String.eqb c name
          && forallb (λ f, match a !! fname f with
                           | Some x => valid (annotation f) x
                           | None => false
                           end) fields
          && map_forallb (λ k _, str_in k (field_names fields)) a
      | _ => false
      end
  end.

(** A valid instance of the class [M]. *)
Definition valid_instance (M : model) (e : instance) : bool :=
  valid (T M) (as_object e).

Fixpoint distinct (l : list string) : bool :=
  match l with
  | [] => true
  | k :: l' => negb (str_in k l') && distinct l'
  end.

(** Every default declared under [t] is a valid value of its field (and no
    class declares a field twice). *)
Fixpoint defaults_valid (t : ftype) : bool :=
  match t with
  | TOptional t' | TList t' | TDict t' => defaults_valid t'
  | TModel _ fields =>
      distinct (field_names fields)
      && forallb (λ f, (required f || valid (annotation f) (get_default f))
                       && defaults_valid (annotation f)) fields
  | _ => true
  end.

(** [defaults_fit t v]: every default that the validation of [v] at [t]
    falls back on (a declared field absent from the input, or [None] let
    through on account of a [None] default) is a valid value of its
    field. *)
Fixpoint defaults_fit (t : ftype) (v : value) {struct t} : bool :=
  match t with
  | TOptional t' => defaults_fit t' v
  | TList t' =>
      match v with VList l => forallb (defaults_fit t') l | _ => true end
  | TDict t' =>
      match dict_of v with
      | Ok d => map_forallb (λ _, defaults_fit t') d
      | _ => true
      end
  | TModel _ fields =>
      distinct (field_names fields)
      && match dict_of v with
         | Ok d =>
             forallb (λ f, match d !! fname f with
                           | None =>
                               required f
                               || valid (annotation f) (get_default f)
                           | Some VNone =>
                               negb (allow_none f)
                               || valid (annotation f) VNone
                           | Some x => defaults_fit (annotation f) x
                           end) fields
         | _ => true
         end
  | _ => true
  end.

(** No field under [t] is required. *)
Fixpoint never_required (t : ftype) : bool :=
  match t with
  | TOptional t' | TList t' | TDict t' => never_required t'
  | TModel _ fields =>
      forallb (λ f, negb (required f) && never_required (annotation f)) fields
  | _ => true
  end.

(** The outcome reports no missing field. *)
Definition no_missing {A} (r : outcome A) : Prop :=
  match r with
  | Invalid es => Forall (λ e : error, e.2 ≠ MissingError) es
  | _ => True
  end.


(** The class accepts [data] and the instance it builds is valid. *)
Definition constructs_valid (M : model) (data : gmap string value) : bool :=
  match construct M data with
  | Ok e => valid_instance M e
  | _ => false
  end.

(** The attribute [k] of an instance. *)
Definition attr (e : instance) (k : string) : option value := attrs e !! k.

End Wire.

(** ** Sample inputs and instances *)

Module Samples.
Import Py Pydantic Models.

Definition msg (role content : string) : value :=
  VModel "Message"
    {[ "role" := VStr role; "content" := VStr content; "uuid" := VNone;
       "created_at" := VNone; "token_count" := VNone; "metadata" := VNone ]}.

Definition msg_dict (role content : string) : value :=
  VDict
    {[ "role" := VStr role; "content" := VStr content; "uuid" := VNone;
       "created_at" := VNone; "token_count" := VNone; "metadata" := VNone ]}.

Definition summary0 : instance :=
  Instance "Summary"
    {[ "uuid" := VStr "u0"; "created_at" := VStr "2023-05-01";
       "content" := VStr "greetings"; "recent_message_uuid" := VStr "u3";
       "token_count" := VInt 7 ]}.

(** A memory of three messages, the first and the last alike, with a
    summary. *)
Definition memory3 : instance :=
  Instance "Memory"
    {[ "messages" := VList [msg "user" "hi"; msg "assistant" "hello";
                            msg "user" "hi"];
       "metadata" := VDict {[ "tags" := VList [VStr "a"; VInt 1] ]};
       "summary" := as_object summary0;
       "uuid" := VNone; "created_at" := VNone; "token_count" := VInt 12 ]}.

(** The keyword arguments of [Session(session_id='s1', metadata={})]. *)
Definition session_s1 : gmap string value :=
  {[ "session_id" := VStr "s1"; "metadata" := VDict ∅ ]}.

(** The Session it constructs. *)
Definition session_s1_instance : instance :=
  Instance "Session"
    {[ "session_id" := VStr "s1"; "metadata" := VDict ∅; "uuid" := VNone;
       "created_at" := VNone; "updated_at" := VNone; "deleted_at" := VNone ]}.

(** A summary mapping with every field but [token_count]. *)
Definition summary_without_token_count : gmap string value :=
  {[ "uuid" := VStr "u0"; "created_at" := VStr "2023-05-01";
     "content" := VStr "greetings"; "recent_message_uuid" := VStr "u3" ]}.

(** The instance pydantic builds from it. *)
Definition summary_placeholder : instance :=
  Instance "Summary"
    {[ "uuid" := VStr "u0"; "created_at" := VStr "2023-05-01";
       "content" := VStr "greetings"; "recent_message_uuid" := VStr "u3";
       "token_count" := VStr "A token_count is required" ]}.

Definition message_without_role : gmap string value :=
  {[ "content" := VStr "hi" ]}.

Definition message_without_content : gmap string value :=
  {[ "role" := VStr "user" ]}.

Definition collection_docs : gmap string value :=
  {[ "name" := VStr "docs" ]}.

(** A search hit, with a distance. *)
Definition search_hit : gmap string value :=
  {[ "message" := VDict {[ "role" := VStr "user"; "content" := VStr "hi" ]};
     "dist" := VFloat 0.5 ]}.

(** An embedded document. *)
Definition document_embedded : gmap string value :=
  {[ "document_id" := VStr "d1"; "content" := VStr "text";
     "embedding" := VList [VFloat 0.5; VFloat 1; VFloat (-2)] ]}.

(** A collection with its embedding space. *)
Definition collection_configured : gmap string value :=
  {[ "name" := VStr "docs"; "embedding_dimensions" := VInt 3;
     "distance_function" := VStr "cosine"; "is_normalized" := VBool true ]}.

(** A session mapping without [session_id]. *)
Definition session_without_id : gmap string value :=
  {[ "metadata" := VDict ∅ ]}.

(** A memory whose [messages] holds [None] and a number. *)
Definition memory_bad_items : gmap string value :=
  {[ "messages" := VList [VNone; VInt 3] ]}.

(** A memory whose [summary] mapping has no [token_count]. *)
Definition memory_summary_without_token_count : gmap string value :=
  {[ "summary" := VDict summary_without_token_count ]}.

(** [Memory(messages=None)]. *)
Definition memory_messages_none : gmap string value :=
  {[ "messages" := VNone ]}.

(** [Document(metadata=None)]. *)
Definition document_metadata_none : gmap string value :=
  {[ "metadata" := VNone ]}.

(** A memory whose two messages are given as mappings. *)
Definition memory_two_dicts : gmap string value :=
  {[ "messages" := VList [VDict message_without_content;
                          VDict message_without_role] ]}.

(** The Memory it constructs. *)
Definition memory_two : instance :=
  Instance "Memory"
    {[ "messages" := VList [msg "user" "Content is required";
                            msg "A role is required" "hi"];
       "metadata" := VNone; "summary" := VNone; "uuid" := VNone;
       "created_at" := VNone; "token_count" := VNone ]}.

(** [Session(session_id=42, metadata={})]. *)
Definition session_numbered : gmap string value :=
  {[ "session_id" := VInt 42; "metadata" := VDict ∅ ]}.


(** A memory as it comes from the wire: three different messages and a
    summary mapping that has no [token_count]. *)
Definition memory3_wire : gmap string value :=
  {[ "messages" :=
       VList [VDict {[ "role" := VStr "user"; "content" := VStr "hi" ]};
              VDict {[ "role" := VStr "assistant";
                       "content" := VStr "hello" ]};
              VDict {[ "role" := VStr "user"; "content" := VStr "bye" ]}];
     "summary" := VDict summary_without_token_count ]}.

(** The Memory it constructs. *)
Definition memory3_defaulted : instance :=
  Instance "Memory"
    {[ "messages" := VList [msg "user" "hi"; msg "assistant" "hello";
                            msg "user" "bye"];
       "metadata" := VNone;
       "summary" := as_object summary_placeholder;
       "uuid" := VNone; "created_at" := VNone; "token_count" := VNone ]}.

(** Keyword arguments accepted by each class. *)
Definition sample_input (M : model) : gmap string value :=
  if String.eqb (model_name M) "Session" then session_s1
  else if String.eqb (model_name M) "Message" then message_without_role
  else if String.eqb (model_name M) "Summary" then attrs summary0
  else if String.eqb (model_name M) "Memory" then attrs memory3
  else if String.eqb (model_name M) "MemorySearchPayload"
       then {[ "text" := VStr "greetings" ]}
  else if String.eqb (model_name M) "MemorySearchResult" then search_hit
  else if String.eqb (model_name M) "Document" then document_embedded
  else if String.eqb (model_name M) "DocumentCollection"
       then collection_configured
  else ∅.

End Samples.

(** ** Induction principles and facts about the kernel *)

Module Facts.
Import Py Pydantic Wire.

Lemma vsize_list_elem x (l : list value) :
  x ∈ l → (vsize x ≤ foldr (λ x acc, vsize x + acc) 0 l)%nat.
Proof.
  induction l as [|y l IH]; intros Hx.
  - by apply elem_of_nil in Hx.
  - apply elem_of_cons in Hx as [->|Hx]; simpl; [lia|].
    specialize (IH Hx). lia.
Qed.

Lemma vsize_map_elem k x (d : gmap string value) :
  d !! k = Some x → (vsize x ≤ map_fold (λ _ x acc, vsize x + acc) 0 d)%nat.
Proof.
  revert k x.
  apply (map_fold_weak_ind
           (λ r (m : gmap string value),
              ∀ k x, m !! k = Some x → (vsize x ≤ r)%nat)).
  - intros k x. by rewrite lookup_empty.
  - intros i y m r Hi IH k x. rewrite lookup_insert_Some.
    intros [[-> ->]|[_ Hk]]; [lia|]. specialize (IH _ _ Hk). lia.
Qed.

(** Induction on values, with the hypothesis for every item of a list and
    every entry of a mapping or of an instance. *)
Lemma value_ind' (P : value → Prop) :
  P VNone → (∀ b, P (VBool b)) → (∀ z, P (VInt z)) → (∀ f, P (VFloat f)) →
  (∀ s, P (VStr s)) →
  (∀ l, Forall P l → P (VList l)) →
  (∀ d, map_Forall (λ _, P) d → P (VDict d)) →
  (∀ c a, map_Forall (λ _, P) a → P (VModel c a)) →
  ∀ v, P v.
Proof.
  intros HN HB HI HF HS HL HD HM v.
  remember (vsize v) as n eqn:Hn.
  revert v Hn. induction n as [n IH] using lt_wf_ind. intros v ->.
  destruct v as [| | | | |l|d|c a]; auto.
  - apply HL, Forall_forall. intros x Hx.
    apply (IH (vsize x)); [|done]. simpl.
    pose proof (vsize_list_elem _ _ Hx). lia.
  - apply HD. intros k x Hk.
    apply (IH (vsize x)); [|done]. simpl.
    pose proof (vsize_map_elem _ _ _ Hk). lia.
  - apply HM. intros k x Hk.
    apply (IH (vsize x)); [|done]. simpl.
    pose proof (vsize_map_elem _ _ _ Hk). lia.
Qed.

(** Induction on annotations, with the hypothesis for every field of a
    model class. *)
Lemma ftype_ind' (P : ftype → Prop) :
  P TAny → P TStr → P TInt → P TFloat → P TBool →
  (∀ t, P t → P (TOptional t)) →
  (∀ t, P t → P (TList t)) →
  (∀ t, P t → P (TDict t)) →
  (∀ name fields,
     Forall (λ f, P (annotation f)) fields → P (TModel name fields)) →
  ∀ t, P t.
Proof.
  intros HA HS HI HF HB HO HL HD HM.
  fix IH 1. intros [| | | | |t|t|t|name fields].
  - exact HA.
  - exact HS.
  - exact HI.
  - exact HF.
  - exact HB.
  - apply HO, IH.
  - apply HL, IH.
  - apply HD, IH.
  - apply HM. induction fields as [|[n t d] fields IHf]; constructor.
    + apply IH.
    + exact IHf.
Qed.

Lemma map_forallb_true {A} (p : string → A → bool) (d : gmap string A) :
  map_forallb p d = true ↔ map_Forall (λ k x, p k x = true) d.
Proof.
  unfold map_forallb.
  apply (map_fold_weak_ind
           (λ r (m : gmap string A),
              r = true ↔ map_Forall (λ k x, p k x = true) m)).
  - split; [intros _; apply map_Forall_empty|done].
  - intros i x m r Hi IH.
    rewrite map_Forall_insert, andb_true_iff, IH; done.
Qed.

Lemma forallb_Forall {A} (p : A → bool) (l : list A) :
  forallb p l = true ↔ Forall (λ x, p x = true) l.
Proof.
  induction l as [|x l IH]; simpl.
  - split; [constructor|done].
  - rewrite andb_true_iff, Forall_cons, IH. done.
Qed.

Lemma str_in_elem k (l : list string) : str_in k l = true ↔ k ∈ l.
Proof.
  unfold str_in. rewrite existsb_exists. split.
  - intros (x & Hx & ->%String.eqb_eq). by apply list_elem_of_In.
  - intros Hk. exists k. split; [by apply list_elem_of_In|apply String.eqb_refl].
Qed.

(** *** Serialisation *)

Lemma plain_VDict d : plain (VDict d) = map_forallb (λ _, plain) d.
Proof. reflexivity. Qed.

Lemma plain_map_Forall (d : gmap string value) :
  plain_map d = true ↔ map_Forall (λ _ x, plain x = true) d.
Proof. apply (map_forallb_true (λ _, plain)). Qed.

(** [get_value] leaves no instance behind, at any depth. *)
Lemma get_value_plain v : plain (get_value v) = true.
Proof.
  induction v as [| | | | |l IH|d IH|c a IH] using value_ind'; try done.
  - simpl. apply forallb_Forall, Forall_fmap. exact IH.
  - simpl get_value. rewrite plain_VDict, map_forallb_true.
    apply map_Forall_fmap. exact IH.
  - simpl get_value. rewrite plain_VDict, map_forallb_true.
    apply map_Forall_fmap. exact IH.
Qed.

(** On JSON-compatible data [get_value] changes nothing. *)
Lemma get_value_id v : plain v = true → get_value v = v.
Proof.
  induction v as [| | | | |l IH|d IH|c a IH] using value_ind'; try done.
  - simpl. intros Hl%forallb_Forall. f_equal.
    induction l as [|x l IHl]; [done|].
    inversion IH; inversion Hl; subst. rewrite fmap_cons. f_equal; auto.
  - rewrite plain_VDict, map_forallb_true. intros Hd. simpl. f_equal.
    apply map_eq. intros k. rewrite lookup_fmap.
    destruct (d !! k) as [x|] eqn:Hk; [|done]. simpl. f_equal.
    apply (IH k x Hk), (Hd k x Hk).
Qed.

(** *** Validation of what serialisation produced *)

Section traversal.
Context (f : value → outcome value).

Lemma validate_items_get_value i (l : list value) :
  Forall (λ x, f (get_value x) = Ok x) l →
  validate_items f i (get_value <$> l) = Ok l.
Proof.
  intros Hl. revert i. induction Hl as [|x l Hx _ IH]; intros i; [done|].
  rewrite fmap_cons. simpl. by rewrite Hx, IH.
Qed.

Lemma validate_values_rel :
  ∀ m m' : gmap string value,
    (∀ k, option_Forall2 (λ x y, f x = Ok y) (m !! k) (m' !! k)) →
    validate_values f m = Ok m'.
Proof.
  unfold validate_values.
  apply (map_fold_weak_ind
           (λ r (m : gmap string value),
              ∀ m', (∀ k, option_Forall2 (λ x y, f x = Ok y)
                            (m !! k) (m' !! k)) → r = Ok m')).
  - intros m' H. f_equal. symmetry. apply map_empty. intros k.
    specialize (H k). rewrite lookup_empty in H. by inversion H.
  - intros i x m r Hi IH m' H.
    pose proof (H i) as Hx. rewrite lookup_insert_eq in Hx.
    inversion Hx as [? y Hy Heq1 Heq2|]; subst.
    rewrite Hy. simpl. rewrite (IH (delete i m')).
    + simpl. f_equal. by apply insert_delete_id.
    + intros k. destruct (decide (k = i)) as [->|Hne].
      * rewrite Hi, lookup_delete_eq. constructor.
      * rewrite lookup_delete_ne by done.
        specialize (H k). by rewrite lookup_insert_ne in H.
Qed.

Lemma validate_values_get_value (d : gmap string value) :
  map_Forall (λ _ x, f (get_value x) = Ok x) d →
  validate_values f (get_value <$> d) = Ok d.
Proof.
  intros Hd. apply validate_values_rel. intros k. rewrite lookup_fmap.
  destruct (d !! k) as [x|] eqn:Hk; constructor. by apply (Hd k).
Qed.

End traversal.

(** Validating, field by field, the serialised attributes of an instance
    that holds a good value for every field gives those attributes back. *)
Lemma validate_model_get_value vt fields (a : gmap string value) :
  Forall (λ f, ∃ x, a !! fname f = Some x ∧
                    vt (annotation f) (get_value x) = Ok x) fields →
  ∃ m, validate_model vt fields (get_value <$> a) = Ok m ∧
       ∀ k, m !! k = if str_in k (field_names fields) then a !! k else None.
Proof.
  induction 1 as [|f fields (x & Hx & Hv) _ (m & Hm & Hlook)].
  - exists ∅. split; [done|]. intros k. by rewrite lookup_empty.
  - exists (<[fname f := x]> m). split.
    + unfold validate_model in *. simpl. rewrite Hm.
      unfold validate_field. rewrite lookup_fmap, Hx. simpl.
      destruct (get_value x) eqn:Hg; rewrite ?Hv; try done.
      destruct x; try done. by destruct (allow_none f).
    + intros k. unfold field_names, str_in. rewrite fmap_cons. simpl.
      destruct (decide (fname f = k)) as [<-|Hne].
      * by rewrite lookup_insert_eq, String.eqb_refl.
      * rewrite lookup_insert_ne by done.
        assert ((k =? fname f)%string = false) as ->
          by (apply String.eqb_neq; congruence).
        apply Hlook.
Qed.

(** The round trip at every annotation. *)
Lemma validate_get_value t v :
  valid t v = true → validate t (get_value v) = Ok v.
Proof.
  revert v.
  induction t as [| | | | |t IH|t IH|t IH|name fields IH] using ftype_ind';
    intros v Hv.
  - simpl in *. by rewrite get_value_id.
  - by destruct v.
  - by destruct v.
  - by destruct v.
  - by destruct v.
  - simpl in Hv. destruct v; try done; by apply IH.
  - destruct v as [| | | | |l| |]; try done. simpl in *.
    apply forallb_Forall in Hv.
    rewrite validate_items_get_value; [done|].
    eapply Forall_impl; [exact Hv|]. intros x. apply IH.
  - destruct v as [| | | | | |d|]; try done.
    simpl in Hv. apply map_forallb_true in Hv. simpl.
    rewrite validate_values_get_value; [done|].
    intros k x Hk. apply IH, (Hv k x Hk).
  - destruct v as [| | | | | | |c a]; try done.
    simpl in Hv. apply andb_true_iff in Hv as [Hv Hdom].
    apply andb_true_iff in Hv as [->%String.eqb_eq Hf].
    apply forallb_Forall in Hf. apply map_forallb_true in Hdom.
    destruct (validate_model_get_value validate fields a) as (m & Hm & Hlook).
    { rewrite Forall_forall in *. intros f Hin.
      specialize (Hf f Hin). specialize (IH f Hin).
      destruct (a !! fname f) as [x|]; [|done]. exists x. auto. }
    simpl. rewrite Hm. simpl. do 2 f_equal. apply map_eq. intros k.
    rewrite Hlook. destruct (str_in k (field_names fields)) eqn:Hin; [done|].
    destruct (a !! k) as [x|] eqn:Hk; [|done].
    specialize (Hdom k x Hk). simpl in Hdom. congruence.
Qed.

(** Round trip of a valid instance of any model class. *)
Lemma construct_dict M e :
  valid_instance M e = true → construct M (dict e) = Ok e.
Proof.
  intros Hv. pose proof (validate_get_value _ _ Hv) as Hr.
  destruct e as [c a]. unfold valid_instance, as_object, T in *. simpl in *.
  apply andb_true_iff in Hv as [Hv _].
  apply andb_true_iff in Hv as [->%String.eqb_eq _].
  unfold construct, dict. simpl.
  destruct (validate_model validate (model_fields M) (get_value <$> a));
    simpl in *; congruence.
Qed.

(** *** What validation produces *)

Lemma at_loc_Ok {A} i (r : outcome A) x : at_loc i r = Ok x → r = Ok x.
Proof. by destruct r. Qed.

Lemma rmap_Ok {E A B} (g : A → B) (r : result E A) y :
  rmap g r = Ok y → ∃ x, r = Ok x ∧ y = g x.
Proof. destruct r; simpl; intros; simplify_eq; eauto. Qed.

Lemma both_Ok {A B C} (g : A → B → C) ra rb z :
  both g ra rb = Ok z → ∃ x y, ra = Ok x ∧ rb = Ok y ∧ z = g x y.
Proof. destruct ra, rb; simpl; intros; simplify_eq; eauto. Qed.

Lemma bind_Ok {A B} (r : outcome A) (k : A → outcome B) y :
  bind r k = Ok y → ∃ x, r = Ok x ∧ k x = Ok y.
Proof. destruct r; simpl; intros; simplify_eq; eauto. Qed.

Lemma not_none_Ok v r v' : not_none v r = Ok v' → r = Ok v'.
Proof. by destruct v. Qed.

Lemma str_validator_valid v v' : str_validator v = Ok v' → valid TStr v' = true.
Proof.
  destruct v; simpl; intros H; simplify_eq; try done.
  by apply rmap_Ok in H as (? & _ & ->).
Qed.

Lemma int_validator_valid v v' : int_validator v = Ok v' → valid TInt v' = true.
Proof.
  destruct v; simpl; intros H; simplify_eq; try done;
    by apply rmap_Ok in H as (? & _ & ->).
Qed.

Lemma float_validator_valid v v' :
  float_validator v = Ok v' → valid TFloat v' = true.
Proof.
  destruct v; simpl; intros H; simplify_eq; try done.
  by apply rmap_Ok in H as (? & _ & ->).
Qed.

Lemma bool_validator_valid v v' :
  bool_validator v = Ok v' → valid TBool v' = true.
Proof.
  destruct v; simpl; intros H; simplify_eq; try done;
    repeat case_match; by simplify_eq.
Qed.

Lemma dict_validator_plain v d :
  plain v = true → dict_validator v = Ok d →
  map_Forall (λ _ x, plain x = true) d.
Proof.
  unfold dict_validator.
  destruct v as [| | | |s|l|d'|]; simpl; try done.
  - destruct s; simpl; intros _ ?; simplify_eq. apply map_Forall_empty.
  - destruct l; simpl; intros _ ?; simplify_eq. apply map_Forall_empty.
  - intros Hd ?; simplify_eq. by apply plain_map_Forall.
Qed.

Lemma validate_items_Ok f i (l l' : list value) :
  validate_items f i l = Ok l' → Forall2 (λ x y, f x = Ok y) l l'.
Proof.
  revert i l'. induction l as [|x l IH]; intros i l'; simpl.
  - intros ?; simplify_eq. constructor.
  - intros (y & l'' & Hy%at_loc_Ok & Hl & ->)%both_Ok.
    constructor; eauto.
Qed.

Lemma validate_values_Ok f :
  ∀ m m' : gmap string value,
    validate_values f m = Ok m' →
    ∀ k, option_Forall2 (λ x y, f x = Ok y) (m !! k) (m' !! k).
Proof.
  unfold validate_values.
  apply (map_fold_weak_ind
           (λ r (m : gmap string value),
              ∀ m', r = Ok m' →
                    ∀ k, option_Forall2 (λ x y, f x = Ok y)
                           (m !! k) (m' !! k))).
  - intros m' ? k; simplify_eq. rewrite !lookup_empty. constructor.
  - intros i x m r Hi IH m' (y & m'' & Hy%at_loc_Ok & -> & ->)%both_Ok k.
    destruct (decide (k = i)) as [->|Hne].
    + rewrite !lookup_insert_eq. by constructor.
    + rewrite !lookup_insert_ne by done. by apply IH.
Qed.

(** What [validate_model] returns holds, for every declared field, the
    outcome of that field, and nothing else. *)
Lemma validate_model_Ok vt fields data m :
  distinct (field_names fields) = true →
  validate_model vt fields data = Ok m →
  Forall (λ f, ∃ x, m !! fname f = Some x ∧
                    validate_field vt f data = Ok x) fields
  ∧ ∀ k, is_Some (m !! k) → k ∈ field_names fields.
Proof.
  revert m. induction fields as [|f fields IH]; intros m; simpl.
  - intros _ ?; simplify_eq. split; [constructor|].
    intros k. rewrite lookup_empty. by intros [? ?].
  - intros [Hf Hd]%andb_true_iff.
    intros (x & m' & Hx & Hm' & ->)%both_Ok.
    apply negb_true_iff in Hf.
    destruct (IH m' Hd Hm') as [IHf IHdom]. split.
    + constructor.
      * exists x. by rewrite lookup_insert_eq.
      * eapply Forall_impl; [exact IHf|]. simpl.
        intros g (y & Hy & Hg). exists y. split; [|done].
        rewrite lookup_insert_ne; [done|]. intros Heq.
        assert (fname f ∈ field_names fields) as Hin%str_in_elem
          by (apply IHdom; rewrite Heq; eauto).
        congruence.
    + intros k. change (is_Some (<[fname f:=x]> m' !! k) →
                        k ∈ fname f :: field_names fields).
      rewrite elem_of_cons.
      destruct (decide (k = fname f)) as [->|Hne]; [by left|].
      rewrite lookup_insert_ne by done. right. by apply IHdom.
Qed.

(** The equations of [validate] at the container and class annotations. *)
Lemma validate_TList t v :
  validate (TList t) v =
  not_none v (bind (list_validator v) (λ l,
    rmap VList (validate_items (validate t) 0 l))).
Proof. reflexivity. Qed.

Lemma validate_TDict t v :
  validate (TDict t) v =
  not_none v (bind (dict_validator v) (λ d,
    rmap VDict (validate_values (validate t) d))).
Proof. reflexivity. Qed.

Lemma validate_TModel_plain name fields v :
  plain v = true →
  validate (TModel name fields) v =
  not_none v (bind (dict_validator v) (λ d,
    rmap (VModel name) (validate_model validate fields d))).
Proof. by destruct v. Qed.

Lemma valid_none_accepts t : accepts_none t = true → valid t VNone = true.
Proof. by destruct t. Qed.

Lemma catch_Ok {A} k (r : result exn A) x : catch k r = Ok x → r = Ok x.
Proof. destruct r; simpl; intros; by simplify_eq. Qed.

(** Every value a validator lets through, given wire data, is valid for the
    annotation, as long as the defaults it fell back on are. *)
Lemma validate_fit t :
  ∀ v v', plain v = true → defaults_fit t v = true →
          validate t v = Ok v' → valid t v' = true.
Proof.
  induction t as [| | | | |t IH|t IH|t IH|name fields IH] using ftype_ind';
    intros v v' Hp Hd Hv.
  - simpl in *. by simplify_eq.
  - destruct v; try (simpl in Hv; done); exact (str_validator_valid _ _ Hv).
  - destruct v; try (simpl in Hv; done); exact (int_validator_valid _ _ Hv).
  - destruct v; try (simpl in Hv; done); exact (float_validator_valid _ _ Hv).
  - destruct v; try (simpl in Hv; done); exact (bool_validator_valid _ _ Hv).
  - simpl in Hd, Hv.
    assert (valid t v' = true → valid (TOptional t) v' = true) as Hopt
      by (simpl; by destruct v').
    destruct v; simplify_eq; try done; by eapply Hopt, IH.
  - rewrite validate_TList in Hv. apply not_none_Ok in Hv.
    destruct v as [| | | | |l| |]; try done. simpl in Hv, Hp, Hd.
    apply rmap_Ok in Hv as (l' & Hl%validate_items_Ok & ->). simpl.
    apply forallb_Forall. apply forallb_Forall in Hp, Hd.
    induction Hl as [|x y l l' Hxy _ IHl]; [constructor|].
    inversion Hp; inversion Hd; subst. constructor; eauto.
  - rewrite validate_TDict in Hv. apply not_none_Ok in Hv.
    apply bind_Ok in Hv as (d0 & Hd0 & (d' & Hd' & ->)%rmap_Ok).
    pose proof (dict_validator_plain _ _ Hp Hd0) as Hp0.
    apply catch_Ok in Hd0. simpl in Hd. rewrite Hd0 in Hd.
    apply map_forallb_true in Hd.
    simpl. apply map_forallb_true. intros k y Hk.
    pose proof (validate_values_Ok _ _ _ Hd' k) as Hrel.
    rewrite Hk in Hrel. inversion Hrel as [x ? Hxy Hx|]; subst.
    apply (IH x y); [by apply (Hp0 k)|by apply (Hd k)|done].
  - rewrite validate_TModel_plain in Hv by done. apply not_none_Ok in Hv.
    apply bind_Ok in Hv as (d0 & Hd0 & (m & Hm & ->)%rmap_Ok).
    pose proof (dict_validator_plain _ _ Hp Hd0) as Hp0.
    apply catch_Ok in Hd0. simpl in Hd. rewrite Hd0 in Hd.
    apply andb_true_iff in Hd as [Hnd Hd]. apply forallb_Forall in Hd.
    destruct (validate_model_Ok _ _ _ _ Hnd Hm) as [Hf Hdom].
    simpl. rewrite String.eqb_refl. simpl. apply andb_true_iff. split.
    + apply forallb_Forall. rewrite Forall_forall in *.
      intros f Hin. destruct (Hf f Hin) as (x & -> & Hx).
      specialize (Hd f Hin). specialize (IH f Hin).
      unfold validate_field in Hx.
      destruct (d0 !! fname f) as [w|] eqn:Hw.
      * assert (plain w = true) as Hpw by apply (Hp0 _ _ Hw).
        destruct w; try (apply at_loc_Ok in Hx; by eapply IH).
        apply at_loc_Ok in Hx.
        destruct (allow_none f) eqn:Hallow; [by simplify_eq|].
        apply orb_false_iff in Hallow as [Hacc _]. clear IH Hd.
        by destruct (annotation f).
      * destruct (required f) eqn:Hreq; [done|]. by simplify_eq.
    + apply map_forallb_true. intros k x Hk. simpl.
      apply str_in_elem, Hdom. eauto.
Qed.

(** Valid declared defaults fit every input. *)
Lemma defaults_valid_fit t :
  defaults_valid t = true → ∀ v, defaults_fit t v = true.
Proof.
  induction t as [| | | | |t IH|t IH|t IH|name fields IH] using ftype_ind';
    intros Hd v; try done.
  - by apply IH.
  - destruct v as [| | | | |l| |]; try done. simpl.
    apply forallb_Forall, Forall_forall. intros x _. by apply IH.
  - simpl. destruct (dict_of v) as [d| |]; [|done..].
    apply map_forallb_true. intros k x _. by apply IH.
  - simpl in Hd |- *. apply andb_true_iff in Hd as [-> Hd]. simpl.
    destruct (dict_of v) as [d| |]; [|done..].
    apply forallb_Forall in Hd. apply forallb_Forall.
    rewrite Forall_forall in *. intros f Hin.
    specialize (Hd f Hin). apply andb_true_iff in Hd as [Hdef Hdv].
    destruct (d !! fname f) as [w|]; [|done].
    assert (negb (allow_none f) || valid (annotation f) VNone = true)
      as Hnone.
    { unfold allow_none. destruct (accepts_none (annotation f)) eqn:Hacc.
      - rewrite valid_none_accepts by done. apply orb_true_r.
      - unfold required, get_default in Hdef.
        by destruct (dflt f) as [|[]|]. }
    destruct w; try done; by apply IH.
Qed.

Lemma validate_valid t :
  defaults_valid t = true →
  ∀ v v', plain v = true → validate t v = Ok v' → valid t v' = true.
Proof.
  intros Hd v v' Hp. apply validate_fit; [done|]. by apply defaults_valid_fit.
Qed.

(** An instance constructed from wire data is valid when the defaults that
    were used are. *)
Lemma construct_fit M data e :
  plain_map data = true → defaults_fit (T M) (VDict data) = true →
  construct M data = Ok e → valid_instance M e = true.
Proof.
  intros Hp%plain_map_Forall Hd He. unfold construct in He.
  apply rmap_Ok in He as (m & Hm & ->).
  apply (validate_fit (T M) (VDict data)); [|done|].
  - rewrite plain_VDict. by apply map_forallb_true.
  - simpl. unfold dict_validator. simpl. by rewrite Hm.
Qed.

Lemma construct_valid M data e :
  defaults_valid (T M) = true → plain_map data = true →
  construct M data = Ok e → valid_instance M e = true.
Proof.
  intros Hd Hp. apply construct_fit; [done|]. by apply defaults_valid_fit.
Qed.

(** *** Where a missing field can be reported *)

Lemma no_missing_raise {A} k : k ≠ MissingError → no_missing (@raise A k).
Proof. intros Hk. simpl. by repeat constructor. Qed.

Lemma no_missing_catch {A} k (r : result exn A) :
  k ≠ MissingError → no_missing (catch k r).
Proof. intros Hk. destruct r; simpl; by repeat constructor. Qed.

Lemma no_missing_at_loc {A} i (r : outcome A) :
  no_missing r → no_missing (at_loc i r).
Proof. destruct r; simpl; [done| |done]. by rewrite Forall_fmap. Qed.

Lemma no_missing_rmap {A B} (g : A → B) (r : outcome A) :
  no_missing r → no_missing (rmap g r).
Proof. by destruct r. Qed.

Lemma no_missing_bind {A B} (r : outcome A) (k : A → outcome B) :
  no_missing r → (∀ a, no_missing (k a)) → no_missing (bind r k).
Proof. destruct r; simpl; auto. Qed.

Lemma no_missing_both {A B C} (g : A → B → C) ra rb :
  no_missing ra → no_missing rb → no_missing (both g ra rb).
Proof. destruct ra, rb; simpl; try done. apply Forall_app_2. Qed.

Lemma no_missing_not_none v r : no_missing r → no_missing (not_none v r).
Proof. intros Hr. destruct v; try done. by apply no_missing_raise. Qed.

Create HintDb no_missing.
#[local] Hint Resolve no_missing_raise no_missing_catch no_missing_at_loc
  no_missing_rmap no_missing_bind no_missing_both no_missing_not_none
  : no_missing.
#[local] Hint Extern 0 (no_missing (Ok _)) => exact I : no_missing.
#[local] Hint Extern 0 (no_missing Unmodelled) => exact I : no_missing.
#[local] Hint Extern 0 (_ ≠ MissingError) => discriminate : no_missing.

Lemma no_missing_scalar v :
  no_missing (str_validator v) ∧ no_missing (int_validator v) ∧
  no_missing (float_validator v) ∧ no_missing (bool_validator v) ∧
  no_missing (list_validator v) ∧ no_missing (dict_validator v).
Proof.
  unfold dict_validator.
  repeat split; destruct v; simpl; repeat case_match;
    auto with no_missing.
Qed.

Lemma no_missing_items f i l :
  (∀ x, no_missing (f x)) → no_missing (validate_items f i l).
Proof.
  intros Hf. revert i.
  induction l as [|x l IH]; intros i; simpl; auto with no_missing.
Qed.

Lemma no_missing_values f (d : gmap string value) :
  (∀ x, no_missing (f x)) → no_missing (validate_values f d).
Proof.
  intros Hf. unfold validate_values.
  apply (map_fold_weak_ind (λ r (_ : gmap string value), no_missing r));
    [done|]. intros; auto with no_missing.
Qed.

Lemma no_missing_model vt fields data :
  Forall (λ f, no_missing (validate_field vt f data)) fields →
  no_missing (validate_model vt fields data).
Proof.
  unfold validate_model. induction 1; simpl; auto with no_missing.
Qed.

(** Only a required field makes validation report a missing field. *)
Lemma validate_no_missing t :
  never_required t = true → ∀ v, no_missing (validate t v).
Proof.
  induction t as [| | | | |t IH|t IH|t IH|name fields IH] using ftype_ind';
    intros Hn v; try (apply no_missing_not_none, no_missing_scalar); try done.
  - simpl in *. destruct v; try done; by apply IH.
  - rewrite validate_TList. apply no_missing_not_none, no_missing_bind.
    + apply no_missing_scalar.
    + intros l. apply no_missing_rmap, no_missing_items. by apply IH.
  - rewrite validate_TDict. apply no_missing_not_none, no_missing_bind.
    + apply no_missing_scalar.
    + intros d. apply no_missing_rmap, no_missing_values. by apply IH.
  - simpl in Hn. apply forallb_Forall in Hn.
    assert (∀ d, no_missing (validate_model validate fields d)) as Hmodel.
    { intros d. apply no_missing_model. rewrite Forall_forall in *.
      intros f Hin. specialize (Hn f Hin).
      apply andb_true_iff in Hn as [Hreq%negb_true_iff Hnr].
      specialize (IH f Hin Hnr). unfold validate_field. rewrite Hreq.
      repeat case_match; auto with no_missing. }
    simpl. apply no_missing_not_none.
    destruct v; try (apply no_missing_bind;
                     [apply no_missing_scalar|intros ?]);
      try case_match; auto with no_missing.
Qed.

Lemma construct_no_missing M data :
  never_required (T M) = true → no_missing (construct M data).
Proof.
  intros Hn. apply no_missing_rmap.
  pose proof (validate_no_missing (T M) Hn (VDict data)) as H.
  simpl in H. unfold dict_validator in H. simpl in H.
  by destruct (validate_model validate (model_fields M) data).
Qed.

(** After a successful construction every declared field is an attribute,
    holding the outcome of that field. *)
Lemma construct_attr M data e f :
  distinct (field_names (model_fields M)) = true →
  f ∈ model_fields M →
  construct M data = Ok e →
  ∃ x, attr e (fname f) = Some x ∧ validate_field validate f data = Ok x.
Proof.
  intros Hnd Hin He. apply rmap_Ok in He as (m & Hm & ->).
  destruct (validate_model_Ok _ _ _ _ Hnd Hm) as [Hf _].
  rewrite Forall_forall in Hf. exact (Hf f Hin).
Qed.

(** A field that is absent from the input and not required holds its
    default. *)
Lemma validate_field_missing vt f data :
  data !! fname f = None → required f = false →
  validate_field vt f data = Ok (get_default f).
Proof. unfold validate_field. by intros -> ->. Qed.

Lemma construct_missing_default M data e f :
  distinct (field_names (model_fields M)) = true →
  f ∈ model_fields M →
  required f = false →
  data !! fname f = None →
  construct M data = Ok e →
  attr e (fname f) = Some (get_default f).
Proof.
  intros Hnd Hin Hreq Hnone He.
  destruct (construct_attr M data e f Hnd Hin He) as (x & Hx & Hf).
  rewrite validate_field_missing in Hf by done. by simplify_eq.
Qed.

Lemma dict_lookup e k : dict e !! k = get_value <$> attr e k.
Proof. unfold dict, attr. apply lookup_fmap. Qed.

End Facts.

(** ** The laws of the specification, on the classes *)

Module Laws.
Import Py Pydantic Models Wire Samples Facts.

(** Closed statements about given inputs are settled by running the
    definitions. *)
Ltac evaluate := vm_compute; reflexivity.

(** *** Round trip *)

(** C1 (round-trip law).  For each of the eight entity classes, a valid
    instance (every field holds a value of its annotation, built from wire
    data) is given back, equal in every field, by constructing the class
    from the instance's serialisation. *)
Theorem round_trip_law (M : model) (e : instance) :
  M ∈ entities →
  valid_instance M e = true →
  construct M (dict e) = Ok e.
Proof.
  intros _ Hv. pose proof (validate_get_value (T M) (as_object e) Hv) as Hr.
  destruct e as [c a]. unfold valid_instance, as_object, T in Hv.
  cbn [valid cls attrs] in Hv.
  apply andb_true_iff in Hv as [Hv _].
  apply andb_true_iff in Hv as [->%String.eqb_eq _].
  unfold construct, dict. cbn [cls attrs]. simpl in Hr.
  unfold as_object in Hr. cbn [cls attrs] in Hr.
  apply rmap_Ok in Hr as (m & -> & Hm). simpl. congruence.
Qed.

Lemma round_trip_law_witness :
  Memory ∈ entities ∧ valid_instance Memory memory3 = true ∧
  construct Memory (dict memory3) = Ok memory3.
Proof.
  assert (Memory ∈ entities) as Hin
    by (do 3 apply list_elem_of_further; apply list_elem_of_here).
  assert (valid_instance Memory memory3 = true) as Hv
    by (vm_compute; reflexivity).
  split; [exact Hin|]. split; [exact Hv|].
  exact (round_trip_law Memory memory3 Hin Hv).
Defined.

(** Each class has valid instances: it constructs one from the sample
    input. *)
Lemma valid_instances_exist :
  forallb (λ M, constructs_valid M (sample_input M)) entities = true.
Proof. evaluate. Qed.

(** An instance constructed from wire data is valid, and so makes the
    round trip, unless the construction fell back on a default that is not a
    value of its field. *)
Lemma constructed_round_trip (M : model) (data : gmap string value)
    (e : instance) :
  plain_map data = true →
  defaults_fit (T M) (VDict data) = true →
  construct M data = Ok e →
  valid_instance M e = true ∧ construct M (dict e) = Ok e.
Proof.
  intros Hp Hd He.
  pose proof (construct_fit M data e Hp Hd He) as Hv.
  split; [done|]. by apply construct_dict.
Qed.

(** Six classes declare only defaults that are values of their fields:
    for them the condition holds of every input. *)
Lemma defaults_always_fit (M : model) (data : gmap string value) :
  M ∈ [Session; Message; MemorySearchPayload; MemorySearchResult;
       Document; DocumentCollection] →
  defaults_fit (T M) (VDict data) = true.
Proof.
  intros HM. apply defaults_valid_fit.
  repeat (apply elem_of_cons in HM as [->|HM]; [by vm_compute|]).
  by apply elem_of_nil in HM.
Qed.

(** The two others, Summary and Memory (through its [summary]), declare a
    text as the default of the [int] field [token_count]. *)
Lemma ill_typed_default :
  defaults_valid (T Summary) = false ∧ defaults_valid (T Memory) = false ∧
  defaults_fit (T Summary) (VDict (dict summary0)) = true ∧
  defaults_fit (T Summary) (VDict summary_without_token_count) = false.
Proof. repeat split; evaluate. Qed.

(** *** Ordering *)

(** C7, on the code.  Memory accepts three messages together with a summary
    mapping that has no [token_count], and holds the three messages in the
    order given; but the summary then holds the text given to [Field] as its
    [token_count], so constructing a Memory from the [to_dict] of that
    Memory is rejected at [summary.token_count]: no sequence of messages
    comes back. *)
Theorem ordering_lost_with_defaulted_summary :
  construct Memory memory3_wire = Ok memory3_defaulted ∧
  attr memory3_defaulted "messages" =
    Some (VList [msg "user" "hi"; msg "assistant" "hello";
                 msg "user" "bye"]) ∧
  construct Memory (Memory_to_dict memory3_defaulted) =
    Invalid [([LName "summary"; LName "token_count"], IntegerError)].
Proof. repeat split; evaluate. Qed.

(** Apart from that, the order is kept: for a valid Memory whose [messages]
    is the sequence [ms], of any length, serialising and constructing again
    succeeds and gives the very same sequence: same items, same order, same
    repetitions. *)
Theorem ordering_law (e : instance) (ms : list value) :
  valid_instance Memory e = true →
  attr e "messages" = Some (VList ms) →
  ∃ e', construct Memory (Memory_to_dict e) = Ok e' ∧
        attr e' "messages" = Some (VList ms).
Proof.
  intros Hv Hms. exists e. split; [|done]. by apply construct_dict.
Qed.

Lemma ordering_law_witness :
  ∃ e', construct Memory (Memory_to_dict memory3) = Ok e' ∧
        attr e' "messages" =
        Some (VList [msg "user" "hi"; msg "assistant" "hello";
                     msg "user" "hi"]).
Proof.
  apply (ordering_law memory3); vm_compute; reflexivity.
Defined.

(** *** Defaults *)

(** C5 (default-fill law).  Whenever a Memory is constructed from a mapping
    without the key [messages], its [messages] attribute is the empty list:
    present, and not [None]. *)
Theorem default_fill_law (data : gmap string value) (e : instance) :
  data !! "messages" = None →
  construct Memory data = Ok e →
  attr e "messages" = Some (VList []).
Proof.
  intros Hnone He.
  pose (f := Field "messages" (TList (T Message)) (Default (VList []))).
  change (attr e (fname f) = Some (get_default f)).
  apply (construct_missing_default Memory data); try done.
  apply list_elem_of_here.
Qed.

Lemma default_fill_law_witness :
  ∃ e, construct Memory ∅ = Ok e ∧ attr e "messages" = Some (VList []).
Proof.
  eexists. split; [vm_compute; reflexivity|].
  apply (default_fill_law ∅); [reflexivity|vm_compute; reflexivity].
Defined.

(** C6 (metadata default law).  Whenever a Document or a DocumentCollection
    is constructed from a mapping without the key [metadata], its [metadata]
    attribute is the empty mapping, and its serialisation has the key
    [metadata] with the empty mapping as value. *)
Theorem metadata_default_law (M : model) (data : gmap string value)
    (e : instance) :
  M = Document ∨ M = DocumentCollection →
  data !! "metadata" = None →
  construct M data = Ok e →
  attr e "metadata" = Some (VDict ∅) ∧
  dict e !! "metadata" = Some (VDict ∅).
Proof.
  intros HM Hnone He.
  pose (f := Field "metadata" (TOptional (TDict TAny))
                   (DefaultFactory dict_type)).
  assert (attr e (fname f) = Some (get_default f)) as Ha.
  { apply (construct_missing_default M data); try done.
    - by destruct HM as [->| ->].
    - destruct HM as [->| ->].
      + do 6 apply list_elem_of_further. apply list_elem_of_here.
      + do 5 apply list_elem_of_further. apply list_elem_of_here. }
  split; [exact Ha|]. rewrite dict_lookup.
  change (get_value <$> attr e (fname f) = Some (VDict ∅)). by rewrite Ha.
Qed.

Lemma metadata_default_law_witness :
  (∃ e, construct Document ∅ = Ok e ∧
        attr e "metadata" = Some (VDict ∅) ∧
        Document_to_dict e !! "metadata" = Some (VDict ∅)) ∧
  (∃ e, construct DocumentCollection collection_docs = Ok e ∧
        attr e "metadata" = Some (VDict ∅) ∧
        DocumentCollection_to_dict e !! "metadata" = Some (VDict ∅)).
Proof.
  split.
  - eexists. split; [vm_compute; reflexivity|].
    apply (metadata_default_law Document ∅);
      [by left|reflexivity|vm_compute; reflexivity].
  - eexists. split; [vm_compute; reflexivity|].
    apply (metadata_default_law DocumentCollection collection_docs);
      [by right|reflexivity|vm_compute; reflexivity].
Defined.

(** C10.  Constructing a MemorySearchResult from the empty mapping succeeds;
    [message], [metadata], [summary] and [dist] are all [None]; no field of
    the class is required. *)
Theorem search_result_of_empty :
  construct MemorySearchResult ∅ =
    Ok (Instance "MemorySearchResult"
          {[ "message" := VNone; "metadata" := VNone; "summary" := VNone;
             "dist" := VNone ]})
  ∧ Forall (λ f, required f = false) (model_fields MemorySearchResult).
Proof.
  split; [evaluate|]. repeat constructor.
Qed.

(** *** Scenarios *)

(** C8.  [Session(session_id='s1', metadata={})], serialised and constructed
    again, is a Session with [session_id] s1, the empty [metadata], and
    [uuid], [created_at], [updated_at], [deleted_at] all [None]. *)
Theorem session_round_trip :
  construct Session session_s1 = Ok session_s1_instance ∧
  construct Session (dict session_s1_instance) = Ok session_s1_instance ∧
  attr session_s1_instance "session_id" = Some (VStr "s1") ∧
  attr session_s1_instance "metadata" = Some (VDict ∅) ∧
  attr session_s1_instance "uuid" = Some VNone ∧
  attr session_s1_instance "created_at" = Some VNone ∧
  attr session_s1_instance "updated_at" = Some VNone ∧
  attr session_s1_instance "deleted_at" = Some VNone.
Proof. repeat split; evaluate. Qed.

(** *** Recursive serialisation *)

(** C9.  The [to_dict] of a Memory holds no model instance at any depth:
    every Message of [messages] is replaced by the mapping of its own
    fields, and so is the Summary when there is one. *)
Theorem Memory_to_dict_recursive (self : instance) :
  plain_map (Memory_to_dict self) = true ∧
  (∀ ms : list instance,
     attr self "messages" = Some (VList (as_object <$> ms)) →
     Memory_to_dict self !! "messages" =
       Some (VList ((λ m, VDict (Message_to_dict m)) <$> ms))) ∧
  (∀ s : instance,
     attr self "summary" = Some (as_object s) →
     Memory_to_dict self !! "summary" = Some (VDict (Summary_to_dict s))).
Proof.
  unfold Memory_to_dict, Message_to_dict, Summary_to_dict. split; [|split].
  - apply plain_map_Forall. unfold dict. apply map_Forall_fmap.
    intros k x _. apply get_value_plain.
  - intros ms Hms. rewrite dict_lookup, Hms. simpl. do 2 f_equal.
    rewrite <- list_fmap_compose. by apply list_fmap_ext.
  - intros s Hs. by rewrite dict_lookup, Hs.
Qed.

Lemma Memory_to_dict_recursive_witness :
  plain_map (Memory_to_dict memory3) = true ∧
  Memory_to_dict memory3 !! "messages" =
    Some (VList [msg_dict "user" "hi"; msg_dict "assistant" "hello";
                 msg_dict "user" "hi"]) ∧
  Memory_to_dict memory3 !! "summary" = Some (VDict (attrs summary0)).
Proof.
  destruct (Memory_to_dict_recursive memory3) as (Hp & Hm & Hs).
  split; [exact Hp|]. split.
  - exact (Hm [Instance "Message" _; Instance "Message" _;
               Instance "Message" _] eq_refl).
  - exact (Hs summary0 eq_refl).
Defined.

(** *** Required fields *)

(** C2, on the code.  A Summary mapping without [token_count] is accepted:
    the instance holds the text given to [Field] as the value of
    [token_count]. *)
Theorem Summary_without_token_count :
  summary_without_token_count !! "token_count" = None ∧
  construct Summary summary_without_token_count = Ok summary_placeholder ∧
  attr summary_placeholder "token_count" =
    Some (VStr "A token_count is required").
Proof. repeat split; evaluate. Qed.

(** The same for every mapping without [token_count] that the class
    accepts. *)
Lemma Summary_token_count_default (data : gmap string value) (e : instance) :
  data !! "token_count" = None →
  construct Summary data = Ok e →
  attr e "token_count" = Some (VStr "A token_count is required").
Proof.
  intros Hnone He.
  pose (f := Field "token_count" TInt
                   (Default (VStr "A token_count is required"))).
  change (attr e (fname f) = Some (get_default f)).
  apply (construct_missing_default Summary data); try done.
  do 4 apply list_elem_of_further. apply list_elem_of_here.
Qed.

(** The instance so obtained does not survive a round trip: its
    serialisation is rejected at [token_count]. *)
Lemma Summary_placeholder_round_trip :
  valid_instance Summary summary_placeholder = false ∧
  construct Summary (dict summary_placeholder) =
    Invalid [([LName "token_count"], IntegerError)].
Proof. split; evaluate. Qed.

(** With no key at all, the five texts given to [Field] are the values. *)
Lemma Summary_of_empty :
  construct Summary ∅ =
    Ok (Instance "Summary"
          {[ "uuid" := VStr "A uuid is required";
             "created_at" := VStr "A created_at is required";
             "content" := VStr "Content is required";
             "recent_message_uuid" :=
               VStr "A recent_message_uuid is required";
             "token_count" := VStr "A token_count is required" ]}).
Proof. evaluate. Qed.

(** Summary, Message, Memory, MemorySearchPayload, MemorySearchResult and
    Document have no required field: whatever the input, their construction
    never reports a missing field.  (Session requires [session_id] and
    [metadata], DocumentCollection requires [name].) *)
Lemma never_missing (M : model) (data : gmap string value) :
  M ∈ [Summary; Message; Memory; MemorySearchPayload; MemorySearchResult;
       Document] →
  no_missing (construct M data).
Proof.
  intros HM. apply construct_no_missing.
  repeat (apply elem_of_cons in HM as [->|HM]; [by vm_compute|]).
  by apply elem_of_nil in HM.
Qed.

Lemma required_fields :
  filter (λ f, required f = true) (model_fields Session) =
    [Field "session_id" TStr Undefined;
     Field "metadata" (TDict TAny) Undefined] ∧
  field_names (filter (λ f, required f = true)
                 (model_fields DocumentCollection)) = ["name"] ∧
  construct Session ∅ =
    Invalid [([LName "session_id"], MissingError);
             ([LName "metadata"], MissingError)].
Proof. repeat split; evaluate. Qed.

(** C3, on the code.  A Message mapping without [role], or without
    [content], is accepted: the instance holds the text given to [Field] in
    place of the missing string. *)
Theorem Message_without_role_or_content :
  (∃ e, construct Message message_without_role = Ok e ∧
        attr e "role" = Some (VStr "A role is required") ∧
        attr e "content" = Some (VStr "hi")) ∧
  (∃ e, construct Message message_without_content = Ok e ∧
        attr e "role" = Some (VStr "user") ∧
        attr e "content" = Some (VStr "Content is required")).
Proof.
  split; eexists; (split; [evaluate|]);
    split; evaluate.
Qed.

(** C4, on the code.  A MemorySearchPayload mapping without [text] is
    accepted: the instance holds the text given to [Field] as its [text]. *)
Theorem MemorySearchPayload_without_text :
  construct MemorySearchPayload ∅ =
    Ok (Instance "MemorySearchPayload"
          {[ "text" := VStr "A text is required"; "metadata" := VNone ]}).
Proof. evaluate. Qed.

End Laws.

(** ** Further properties of the classes *)

Module Extra.
Import Py Pydantic Models Wire Samples Facts.

(** *** Field tables *)

Lemma entities_distinct M :
  M ∈ entities → distinct (field_names (model_fields M)) = true.
Proof.
  intros HM.
  repeat (apply elem_of_cons in HM as [->|HM]; [by vm_compute|]).
  by apply elem_of_nil in HM.
Qed.

Lemma distinct_fname_inj (fields : list field) f g :
  distinct (field_names fields) = true →
  f ∈ fields → g ∈ fields → fname f = fname g → f = g.
Proof.
  induction fields as [|h fields IH]; simpl.
  - intros _ Hf. by apply elem_of_nil in Hf.
  - intros [Hh Hd]%andb_true_iff Hf Hg Heq.
    apply negb_true_iff in Hh.
    assert (∀ x, x ∈ fields → fname x ≠ fname h) as Hne.
    { intros x Hx Hxh.
      assert (str_in (fname h) (field_names fields) = true); [|congruence].
      apply str_in_elem. rewrite <- Hxh. unfold field_names.
      by apply list_elem_of_fmap_2. }
    apply elem_of_cons in Hf as [->|Hf]; apply elem_of_cons in Hg as [->|Hg].
    + done.
    + by destruct (Hne g Hg).
    + by destruct (Hne f Hf).
    + by apply IH.
Qed.

(** *** One field at a time *)

Lemma validate_field_lookup_ext vt f (d1 d2 : gmap string value) :
  d1 !! fname f = d2 !! fname f →
  validate_field vt f d1 = validate_field vt f d2.
Proof. unfold validate_field. by intros ->. Qed.

Lemma validate_model_ext vt fields (d1 d2 : gmap string value) :
  (∀ f, f ∈ fields → validate_field vt f d1 = validate_field vt f d2) →
  validate_model vt fields d1 = validate_model vt fields d2.
Proof.
  unfold validate_model. induction fields as [|f fields IH]; [done|].
  intros H. simpl. rewrite (H f) by apply list_elem_of_here.
  rewrite IH; [done|]. intros g Hg. apply H. by apply list_elem_of_further.
Qed.

Lemma validate_model_fields_ok vt fields data m :
  validate_model vt fields data = Ok m →
  ∀ f, f ∈ fields → ∃ x, validate_field vt f data = Ok x.
Proof.
  unfold validate_model. revert m.
  induction fields as [|g fields IH]; intros m; simpl.
  - intros _ f Hf. by apply elem_of_nil in Hf.
  - intros (x & m' & Hx & Hm' & ->)%both_Ok f Hf.
    apply elem_of_cons in Hf as [->|Hf]; eauto.
Qed.

Lemma validate_model_errors vt fields data errs f es :
  validate_model vt fields data = Invalid errs →
  f ∈ fields → validate_field vt f data = Invalid es →
  ∀ err, err ∈ es → err ∈ errs.
Proof.
  unfold validate_model. revert errs.
  induction fields as [|g fields IH]; intros errs; simpl.
  - intros _ Hf. by apply elem_of_nil in Hf.
  - intros Hb Hf Hes err Herr.
    destruct (validate_field vt g data) as [x|e1|] eqn:Hg;
      destruct (foldr _ _ fields) as [m|e2|] eqn:Hrest;
      simpl in Hb; simplify_eq.
    + apply elem_of_cons in Hf as [->|Hf]; [congruence|].
      by apply (IH errs).
    + apply elem_of_cons in Hf as [->|Hf]; [congruence|].
      destruct (validate_model_fields_ok vt fields data m Hrest f Hf)
        as (x & Hx). congruence.
    + apply elem_of_app.
      apply elem_of_cons in Hf as [->|Hf]; [left; congruence|].
      right. by apply (IH e2).
Qed.

Lemma construct_not_Ok M data f :
  f ∈ model_fields M →
  (∀ x, validate_field validate f data ≠ Ok x) →
  ∀ e, construct M data ≠ Ok e.
Proof.
  intros Hf Hn e (m & Hm & _)%rmap_Ok.
  destruct (validate_model_fields_ok _ _ _ _ Hm f Hf) as (x & Hx).
  by apply (Hn x).
Qed.

Lemma construct_errors M data errs f es :
  construct M data = Invalid errs →
  f ∈ model_fields M → validate_field validate f data = Invalid es →
  ∀ err, err ∈ es → err ∈ errs.
Proof.
  unfold construct. intros Hc.
  destruct (validate_model validate (model_fields M) data) as [|e|] eqn:Hm;
    simpl in Hc; simplify_eq.
  by apply validate_model_errors.
Qed.

(** *** Required fields *)

Lemma required_missing M f data :
  f ∈ model_fields M → required f = true → data !! fname f = None →
  (∀ e, construct M data ≠ Ok e) ∧
  (∀ errs, construct M data = Invalid errs →
           ([LName (fname f)], MissingError) ∈ errs).
Proof.
  intros Hf Hreq Hnone.
  assert (validate_field validate f data =
          Invalid [([LName (fname f)], MissingError)]) as Hv
    by (unfold validate_field; by rewrite Hnone, Hreq).
  split.
  - apply (construct_not_Ok M data f Hf). intros x. by rewrite Hv.
  - intros errs Hc. apply (construct_errors M data errs f _ Hc Hf Hv).
    apply list_elem_of_here.
Qed.

(** X1.  Session requires [session_id] and [metadata], DocumentCollection
    requires [name]: from a mapping without the key the construction never
    succeeds, and a validation error lists the key as a missing field. *)
Theorem required_field_missing (M : model) (k : string)
    (data : gmap string value) :
  (M, k) ∈ [(Session, "session_id"); (Session, "metadata");
            (DocumentCollection, "name")] →
  data !! k = None →
  (∀ e, construct M data ≠ Ok e) ∧
  (∀ errs, construct M data = Invalid errs →
           ([LName k], MissingError) ∈ errs).
Proof.
  intros HM Hnone.
  apply elem_of_cons in HM as [HM|HM]; [|apply elem_of_cons in HM as [HM|HM]];
    [| |apply list_elem_of_singleton in HM]; simplify_eq.
  - apply (required_missing Session (Field "session_id" TStr Undefined));
      [|done..]. do 4 apply list_elem_of_further. apply list_elem_of_here.
  - apply (required_missing Session (Field "metadata" (TDict TAny) Undefined));
      [|done..]. do 5 apply list_elem_of_further. apply list_elem_of_here.
  - apply (required_missing DocumentCollection (Field "name" TStr Undefined));
      [|done..]. do 3 apply list_elem_of_further. apply list_elem_of_here.
Qed.

Lemma required_field_missing_witness :
  (∀ e, construct Session session_without_id ≠ Ok e) ∧
  (∀ errs, construct Session session_without_id = Invalid errs →
           ([LName "session_id"], MissingError) ∈ errs).
Proof.
  apply (required_field_missing Session "session_id" session_without_id);
    [apply list_elem_of_here|vm_compute; reflexivity].
Defined.

(** X2.  Summary, Message, Memory, MemorySearchPayload, MemorySearchResult
    and Document require nothing: whatever the input, no error of a failed
    construction is a missing field. *)
Theorem no_field_required (M : model) (data : gmap string value)
    (errs : list error) :
  M ∈ [Summary; Message; Memory; MemorySearchPayload; MemorySearchResult;
       Document] →
  construct M data = Invalid errs →
  Forall (λ err, err.2 ≠ MissingError) errs.
Proof.
  intros HM Hc.
  assert (never_required (T M) = true) as Hn.
  { repeat (apply elem_of_cons in HM as [->|HM]; [by vm_compute|]).
    by apply elem_of_nil in HM. }
  pose proof (construct_no_missing M data Hn) as H. by rewrite Hc in H.
Qed.

Lemma no_field_required_witness :
  construct Memory memory_bad_items =
    Invalid [([LName "messages"; LIndex 0], NoneIsNotAllowedError);
             ([LName "messages"; LIndex 1], DictError)] ∧
  Forall (λ err : error, err.2 ≠ MissingError)
    [([LName "messages"; LIndex 0], NoneIsNotAllowedError);
     ([LName "messages"; LIndex 1], DictError)].
Proof.
  assert (construct Memory memory_bad_items =
          Invalid [([LName "messages"; LIndex 0], NoneIsNotAllowedError);
                   ([LName "messages"; LIndex 1], DictError)]) as Hc
    by (vm_compute; reflexivity).
  split; [exact Hc|].
  apply (no_field_required Memory memory_bad_items); [|exact Hc].
  do 2 apply list_elem_of_further. apply list_elem_of_here.
Defined.

(** *** Keys and attributes *)

(** X3.  A construction looks only at the keys that name a declared field:
    two mappings that agree on them have the same outcome, so keys that name
    no field are ignored. *)
Theorem undeclared_keys_ignored (M : model) (d1 d2 : gmap string value) :
  M ∈ entities →
  (∀ k, k ∈ field_names (model_fields M) → d1 !! k = d2 !! k) →
  construct M d1 = construct M d2.
Proof.
  intros _ Hagree. unfold construct. f_equal.
  apply validate_model_ext. intros f Hf.
  apply validate_field_lookup_ext, Hagree.
  unfold field_names. by apply list_elem_of_fmap_2.
Qed.

Lemma undeclared_keys_ignored_witness :
  construct Session session_s1 =
  construct Session (<["user_id" := VStr "x"]> session_s1).
Proof.
  apply (undeclared_keys_ignored Session).
  - apply list_elem_of_here.
  - intros k Hk.
    repeat (apply elem_of_cons in Hk as [->|Hk]; [vm_compute; reflexivity|]).
    by apply elem_of_nil in Hk.
Defined.

(** X4.  An instance that a class constructs is of that class and has
    exactly the declared fields as attributes; its serialisation has exactly
    the declared fields as keys. *)
Theorem declared_attributes (M : model) (data : gmap string value)
    (e : instance) :
  M ∈ entities →
  construct M data = Ok e →
  cls e = model_name M ∧
  ∀ k, (is_Some (attr e k) ↔ k ∈ field_names (model_fields M)) ∧
       (is_Some (dict e !! k) ↔ k ∈ field_names (model_fields M)).
Proof.
  intros HM%entities_distinct (m & Hm & ->)%rmap_Ok. split; [done|].
  destruct (validate_model_Ok _ _ _ _ HM Hm) as [Hf Hdom].
  assert (∀ k, is_Some (m !! k) ↔ k ∈ field_names (model_fields M)) as Hk.
  { intros k. split; [apply Hdom|].
    unfold field_names. intros (f & -> & Hin)%list_elem_of_fmap.
    rewrite Forall_forall in Hf. destruct (Hf f Hin) as (x & -> & _). eauto. }
  intros k. split; [apply Hk|].
  rewrite dict_lookup. unfold attr. simpl. rewrite <- Hk.
  by rewrite fmap_is_Some.
Qed.

Lemma declared_attributes_witness :
  cls session_s1_instance = "Session" ∧
  ∀ k, (is_Some (attr session_s1_instance k) ↔
        k ∈ ["uuid"; "created_at"; "updated_at"; "deleted_at";
             "session_id"; "metadata"]) ∧
       (is_Some (dict session_s1_instance !! k) ↔
        k ∈ ["uuid"; "created_at"; "updated_at"; "deleted_at";
             "session_id"; "metadata"]).
Proof.
  apply (declared_attributes Session session_s1);
    [apply list_elem_of_here|vm_compute; reflexivity].
Defined.

(** *** Round trips of constructed instances *)

(** X5.  Every Session, Message, MemorySearchPayload, MemorySearchResult,
    Document and DocumentCollection constructed from JSON-compatible data is
    given back, equal in every field, by constructing the class from its
    serialisation. *)
Theorem wire_round_trip (M : model) (data : gmap string value)
    (e : instance) :
  M ∈ [Session; Message; MemorySearchPayload; MemorySearchResult;
       Document; DocumentCollection] →
  plain_map data = true →
  construct M data = Ok e →
  construct M (dict e) = Ok e.
Proof.
  intros HM Hp He. apply construct_dict.
  apply (construct_valid M data e); [|done..].
  repeat (apply elem_of_cons in HM as [->|HM]; [by vm_compute|]).
  by apply elem_of_nil in HM.
Qed.

Lemma wire_round_trip_witness :
  ∃ e, construct Document document_embedded = Ok e ∧
       construct Document (Document_to_dict e) = Ok e.
Proof.
  eexists. split; [vm_compute; reflexivity|].
  apply (wire_round_trip Document document_embedded);
    [|vm_compute; reflexivity..].
  do 4 apply list_elem_of_further. apply list_elem_of_here.
Defined.

(** *** The text default of [Summary.token_count] *)

Lemma validate_placeholder :
  validate TInt (VStr "A token_count is required") =
    Invalid [([], IntegerError)].
Proof. vm_compute; reflexivity. Qed.

Lemma validate_optional_model n fs (d : gmap string value) :
  validate (TOptional (TModel n fs)) (VDict d) =
    rmap (VModel n) (validate_model validate fs d).
Proof. reflexivity. Qed.

(** A Summary mapping that holds the text under [token_count] is
    rejected. *)
Lemma Summary_placeholder_rejected (d : gmap string value) :
  d !! "token_count" = Some (VStr "A token_count is required") →
  validate_field validate
    (Field "token_count" TInt (Default (VStr "A token_count is required"))) d
  = Invalid [([LName "token_count"], IntegerError)].
Proof.
  intros Hd. unfold validate_field. cbn [fname annotation]. rewrite Hd.
  by rewrite validate_placeholder.
Qed.

Lemma token_count_declared :
  Field "token_count" TInt (Default (VStr "A token_count is required"))
    ∈ model_fields Summary.
Proof. do 4 apply list_elem_of_further. apply list_elem_of_here. Qed.

Lemma Summary_default_attr (data : gmap string value) (e : instance) :
  data !! "token_count" = None →
  construct Summary data = Ok e →
  dict e !! "token_count" = Some (VStr "A token_count is required").
Proof.
  intros Hnone He. rewrite dict_lookup.
  pose (f := Field "token_count" TInt
                   (Default (VStr "A token_count is required"))).
  change (get_value <$> attr e (fname f) = Some (get_value (get_default f))).
  rewrite (construct_missing_default Summary data e f); try done.
  apply token_count_declared.
Qed.

(** X6.  A Summary constructed from a mapping without [token_count] cannot
    be constructed again from its own [to_dict]: the second construction
    never succeeds, and a validation error reports [token_count] as not an
    integer. *)
Theorem Summary_default_breaks_round_trip (data : gmap string value)
    (e : instance) :
  data !! "token_count" = None →
  construct Summary data = Ok e →
  (∀ e', construct Summary (Summary_to_dict e) ≠ Ok e') ∧
  (∀ errs, construct Summary (Summary_to_dict e) = Invalid errs →
           ([LName "token_count"], IntegerError) ∈ errs).
Proof.
  intros Hnone He. unfold Summary_to_dict.
  pose proof (Summary_placeholder_rejected (dict e)
                (Summary_default_attr data e Hnone He)) as Hv.
  split.
  - apply (construct_not_Ok Summary (dict e) _ token_count_declared).
    intros x. by rewrite Hv.
  - intros errs Hc.
    apply (construct_errors Summary (dict e) errs _ _ Hc
             token_count_declared Hv).
    apply list_elem_of_here.
Qed.

Lemma Summary_default_breaks_round_trip_witness :
  (∀ e', construct Summary (Summary_to_dict summary_placeholder) ≠ Ok e') ∧
  (∀ errs,
     construct Summary (Summary_to_dict summary_placeholder) = Invalid errs →
     ([LName "token_count"], IntegerError) ∈ errs).
Proof.
  apply (Summary_default_breaks_round_trip summary_without_token_count);
    vm_compute; reflexivity.
Defined.

(** X7.  The same inside a Memory: when the [summary] mapping has no
    [token_count], the Memory is constructed, but no Memory can be
    constructed from its [to_dict]. *)
Theorem Memory_summary_default_breaks_round_trip
    (data sd : gmap string value) (e : instance) :
  data !! "summary" = Some (VDict sd) →
  sd !! "token_count" = None →
  construct Memory data = Ok e →
  ∀ e', construct Memory (Memory_to_dict e) ≠ Ok e'.
Proof.
  intros Hs Hnone He. unfold Memory_to_dict.
  pose (f := Field "summary" (TOptional (T Summary)) (Default VNone)).
  assert (f ∈ model_fields Memory) as Hf
    by (do 2 apply list_elem_of_further; apply list_elem_of_here).
  destruct (construct_attr Memory data e f eq_refl Hf He) as (x & Hx & Hv).
  unfold validate_field in Hv. cbn [fname annotation f] in Hv.
  rewrite Hs in Hv. apply at_loc_Ok in Hv.
  unfold T in Hv. rewrite validate_optional_model in Hv.
  apply rmap_Ok in Hv as (m & Hm & ->).
  assert (construct Summary sd = Ok (Instance "Summary" m)) as Hsum
    by (unfold construct; by rewrite Hm).
  pose proof (Summary_default_attr sd _ Hnone Hsum) as Htc.
  apply (construct_not_Ok Memory (dict e) f Hf). intros y Hy.
  unfold validate_field in Hy. cbn [fname annotation f] in Hy.
  rewrite dict_lookup in Hy. change (attr e (fname f)) with (attr e "summary") in Hx.
  rewrite Hx in Hy. cbn [fmap option_fmap option_map get_value] in Hy.
  apply at_loc_Ok in Hy.
  unfold T in Hy. rewrite validate_optional_model in Hy.
  apply rmap_Ok in Hy as (m' & Hm' & _).
  destruct (validate_model_fields_ok _ _ _ _ Hm' _ token_count_declared)
    as (z & Hz).
  pose proof (Summary_placeholder_rejected (get_value <$> m) Htc) as Hr.
  pose proof (eq_trans (eq_sym Hz) Hr) as Hzr. discriminate Hzr.
Qed.

Lemma Memory_summary_default_breaks_round_trip_witness :
  ∃ e, construct Memory memory_summary_without_token_count = Ok e ∧
       ∀ e', construct Memory (Memory_to_dict e) ≠ Ok e'.
Proof.
  eexists. split; [vm_compute; reflexivity|].
  apply (Memory_summary_default_breaks_round_trip
           memory_summary_without_token_count summary_without_token_count);
    vm_compute; reflexivity.
Defined.

(** *** None *)

Lemma validate_none_rejected t :
  accepts_none t = false →
  validate t VNone = Invalid [([], NoneIsNotAllowedError)].
Proof. by destruct t. Qed.

(** X8.  A field that is neither [Optional] nor defaulted to [None] rejects
    an explicit [None]: the construction never succeeds, and a validation
    error reports the field as not allowing [None].  (Unlike a missing key,
    which such a field may fill with its default.) *)
Theorem none_rejected (M : model) (f : field) (data : gmap string value) :
  M ∈ entities →
  f ∈ model_fields M →
  allow_none f = false →
  data !! fname f = Some VNone →
  (∀ e, construct M data ≠ Ok e) ∧
  (∀ errs, construct M data = Invalid errs →
           ([LName (fname f)], NoneIsNotAllowedError) ∈ errs).
Proof.
  intros _ Hf Hallow Hnone.
  assert (validate_field validate f data =
          Invalid [([LName (fname f)], NoneIsNotAllowedError)]) as Hv.
  { unfold validate_field. rewrite Hnone, Hallow.
    apply orb_false_iff in Hallow as [Hacc _].
    by rewrite validate_none_rejected. }
  split.
  - apply (construct_not_Ok M data f Hf). intros x. by rewrite Hv.
  - intros errs Hc. apply (construct_errors M data errs f _ Hc Hf Hv).
    apply list_elem_of_here.
Qed.

Lemma none_rejected_witness :
  (∀ e, construct Memory memory_messages_none ≠ Ok e) ∧
  (∀ errs, construct Memory memory_messages_none = Invalid errs →
           ([LName "messages"], NoneIsNotAllowedError) ∈ errs).
Proof.
  apply (none_rejected Memory
           (Field "messages" (TList (T Message)) (Default (VList [])))
           memory_messages_none).
  - do 3 apply list_elem_of_further. apply list_elem_of_here.
  - apply list_elem_of_here.
  - reflexivity.
  - vm_compute; reflexivity.
Defined.

(** The fields that reject [None], class by class. *)
Lemma non_nullable_fields :
  (λ M, (model_name M,
         field_names (filter (λ f, allow_none f = false) (model_fields M))))
    <$> entities =
  [("Session", ["session_id"; "metadata"]);
   ("Message", ["role"; "content"]);
   ("Summary", ["uuid"; "created_at"; "content"; "recent_message_uuid";
                "token_count"]);
   ("Memory", ["messages"]);
   ("MemorySearchPayload", ["text"]);
   ("MemorySearchResult", []);
   ("Document", []);
   ("DocumentCollection", ["name"])].
Proof. vm_compute; reflexivity. Qed.

(** X9.  An explicit [None] is stored as [None] in every other field,
    whatever the field's default, and is serialised as [None]: a Document or
    DocumentCollection given [metadata=None] has [metadata] [None], not the
    empty mapping. *)
Theorem none_is_kept (M : model) (f : field) (data : gmap string value)
    (e : instance) :
  M ∈ entities →
  f ∈ model_fields M →
  allow_none f = true →
  data !! fname f = Some VNone →
  construct M data = Ok e →
  attr e (fname f) = Some VNone ∧ dict e !! fname f = Some VNone.
Proof.
  intros HM%entities_distinct Hf Hallow Hnone He.
  destruct (construct_attr M data e f HM Hf He) as (x & Hx & Hv).
  unfold validate_field in Hv. rewrite Hnone, Hallow in Hv. simpl in Hv.
  simplify_eq. split; [done|]. by rewrite dict_lookup, Hx.
Qed.

Lemma none_is_kept_witness :
  ∃ e, construct Document document_metadata_none = Ok e ∧
       attr e "metadata" = Some VNone ∧
       Document_to_dict e !! "metadata" = Some VNone.
Proof.
  eexists. split; [vm_compute; reflexivity|].
  apply (none_is_kept Document
           (Field "metadata" (TOptional (TDict TAny))
                  (DefaultFactory dict_type))
           document_metadata_none).
  - do 6 apply list_elem_of_further. apply list_elem_of_here.
  - do 6 apply list_elem_of_further. apply list_elem_of_here.
  - reflexivity.
  - vm_compute; reflexivity.
  - vm_compute; reflexivity.
Defined.

(** X10.  For a field that lets [None] through and whose default is [None],
    giving [None] and leaving the key out are the same construction. *)
Theorem none_as_absent (M : model) (f : field) (data : gmap string value) :
  M ∈ entities →
  f ∈ model_fields M →
  allow_none f = true →
  get_default f = VNone →
  construct M (<[fname f := VNone]> data) =
  construct M (delete (fname f) data).
Proof.
  intros HM%entities_distinct Hf Hallow Hdef. unfold construct. f_equal.
  apply validate_model_ext. intros g Hg.
  destruct (decide (fname g = fname f)) as [Heq|Hne].
  - assert (g = f) as -> by by apply (distinct_fname_inj (model_fields M)).
    unfold validate_field.
    rewrite lookup_insert_eq, lookup_delete_eq, Hallow, Hdef. simpl.
    assert (required f = false) as ->; [|done].
    unfold required, allow_none, get_default in *.
    destruct (dflt f); [|done..]. rewrite orb_false_r in Hallow.
    by rewrite Hallow.
  - apply validate_field_lookup_ext.
    by rewrite lookup_insert_ne, lookup_delete_ne.
Qed.

Lemma none_as_absent_witness :
  construct Message (<["uuid" := VNone]> message_without_role) =
  construct Message (delete "uuid" message_without_role).
Proof.
  apply (none_as_absent Message
           (Field "uuid" (TOptional TStr) (Default VNone))
           message_without_role).
  - do 1 apply list_elem_of_further. apply list_elem_of_here.
  - do 2 apply list_elem_of_further. apply list_elem_of_here.
  - reflexivity.
  - reflexivity.
Defined.

(** *** Values that already have the declared type *)

Lemma validate_items_Forall2 f i (l l' : list value) :
  Forall2 (λ x y, f x = Ok y) l l' → validate_items f i l = Ok l'.
Proof.
  intros H. revert i. induction H as [|x y l l' Hxy _ IH]; intros i; [done|].
  simpl. by rewrite Hxy, IH.
Qed.

(** A validator gives a valid value back as it is. *)
Lemma validate_valid_id t v : valid t v = true → validate t v = Ok v.
Proof.
  revert v.
  induction t as [| | | | |t IH|t IH|t IH|name fields IH] using ftype_ind';
    intros v Hv; try (by destruct v).
  - simpl in Hv. destruct v; try done; by apply IH.
  - destruct v as [| | | | |l| |]; try done. simpl in Hv.
    apply forallb_Forall in Hv. rewrite validate_TList. simpl.
    rewrite (validate_items_Forall2 _ _ l l); [done|].
    apply Forall_Forall2_diag. eapply Forall_impl; [exact Hv|]. apply IH.
  - destruct v as [| | | | | |d|]; try done. simpl in Hv.
    apply map_forallb_true in Hv. rewrite validate_TDict. simpl.
    rewrite (validate_values_rel _ d d); [done|]. intros k.
    destruct (d !! k) as [x|] eqn:Hk; constructor. by apply IH, (Hv k).
  - destruct v as [| | | | | | |c a]; try done. simpl in Hv.
    apply andb_true_iff in Hv as [Hv _].
    apply andb_true_iff in Hv as [Hc _]. simpl. by rewrite Hc.
Qed.

Lemma validate_field_valid_id f (data : gmap string value) x :
  data !! fname f = Some x → valid (annotation f) x = true →
  validate_field validate f data = Ok x.
Proof.
  intros Hx Hv%validate_valid_id. unfold validate_field. rewrite Hx.
  destruct x; rewrite ?Hv; try done. by destruct (allow_none f).
Qed.

(** X11.  A given value that already is of the field's annotation is stored
    as it was given: strings, numbers and lists unchanged and in order,
    nested entities passed as objects kept as those objects. *)
Theorem typed_value_kept (M : model) (f : field) (data : gmap string value)
    (x : value) (e : instance) :
  M ∈ entities →
  f ∈ model_fields M →
  data !! fname f = Some x →
  valid (annotation f) x = true →
  construct M data = Ok e →
  attr e (fname f) = Some x.
Proof.
  intros HM%entities_distinct Hf Hx Hv He.
  destruct (construct_attr M data e f HM Hf He) as (y & Hy & Hfy).
  rewrite (validate_field_valid_id f data x Hx Hv) in Hfy. by simplify_eq.
Qed.

Lemma typed_value_kept_witness :
  ∃ e, construct Memory (attrs memory3) = Ok e ∧
       attr e "messages" =
         Some (VList [msg "user" "hi"; msg "assistant" "hello";
                      msg "user" "hi"]).
Proof.
  eexists. split; [vm_compute; reflexivity|].
  apply (typed_value_kept Memory
           (Field "messages" (TList (T Message)) (Default (VList [])))
           (attrs memory3)).
  - do 3 apply list_elem_of_further. apply list_elem_of_here.
  - apply list_elem_of_here.
  - vm_compute; reflexivity.
  - vm_compute; reflexivity.
  - vm_compute; reflexivity.
Defined.

Lemma validate_model_id vt fields (a : gmap string value) :
  Forall (λ f, ∃ x, a !! fname f = Some x ∧
                    validate_field vt f a = Ok x) fields →
  ∃ m, validate_model vt fields a = Ok m ∧
       ∀ k, m !! k = if str_in k (field_names fields) then a !! k else None.
Proof.
  induction 1 as [|f fields (x & Hx & Hv) _ (m & Hm & Hlook)].
  - exists ∅. split; [done|]. intros k. by rewrite lookup_empty.
  - exists (<[fname f := x]> m). split.
    + unfold validate_model in *. simpl. by rewrite Hm, Hv.
    + intros k. unfold field_names, str_in. rewrite fmap_cons. simpl.
      destruct (decide (fname f = k)) as [<-|Hne].
      * by rewrite lookup_insert_eq, String.eqb_refl.
      * rewrite lookup_insert_ne by done.
        assert ((k =? fname f)%string = false) as ->
          by (apply String.eqb_neq; congruence).
        apply Hlook.
Qed.

(** X12.  Constructing a class from the attributes of one of its valid
    instances (nested entities given as objects) gives that instance. *)
Theorem construct_from_attributes (M : model) (e : instance) :
  M ∈ entities →
  valid_instance M e = true →
  construct M (attrs e) = Ok e.
Proof.
  intros _ Hv. destruct e as [c a].
  unfold valid_instance, as_object, T in Hv. cbn [valid cls attrs] in Hv.
  apply andb_true_iff in Hv as [Hv Hdom].
  apply andb_true_iff in Hv as [->%String.eqb_eq Hf].
  apply forallb_Forall in Hf. apply map_forallb_true in Hdom.
  destruct (validate_model_id validate (model_fields M) a) as (m & Hm & Hlook).
  { eapply Forall_impl; [exact Hf|]. simpl. intros f Hfa.
    destruct (a !! fname f) as [x|] eqn:Hx; [|done].
    exists x. split; [done|]. by apply validate_field_valid_id. }
  unfold construct. cbn [attrs]. rewrite Hm. simpl. do 2 f_equal.
  apply map_eq. intros k. rewrite Hlook.
  destruct (str_in k (field_names (model_fields M))) eqn:Hin; [done|].
  destruct (a !! k) as [x|] eqn:Hk; [|done].
  specialize (Hdom k x Hk). simpl in Hdom. congruence.
Qed.

Lemma construct_from_attributes_witness :
  construct Memory (attrs memory3) = Ok memory3.
Proof.
  apply (construct_from_attributes Memory memory3).
  - do 3 apply list_elem_of_further. apply list_elem_of_here.
  - vm_compute; reflexivity.
Defined.

(** *** Lists *)

(** X13.  A list given for [Memory.messages] or [Document.embedding] is
    hydrated item by item: the stored list has the same length, and its
    i-th item is what the item validator makes of the i-th given item. *)
Theorem list_field_hydration (M : model) (f : field) (t : ftype)
    (data : gmap string value) (l : list value) (e : instance) :
  M ∈ entities →
  f ∈ model_fields M →
  annotation f = TList t ∨ annotation f = TOptional (TList t) →
  data !! fname f = Some (VList l) →
  construct M data = Ok e →
  ∃ l', attr e (fname f) = Some (VList l') ∧
        Forall2 (λ x y, validate t x = Ok y) l l'.
Proof.
  intros HM%entities_distinct Hf Ht Hl He.
  destruct (construct_attr M data e f HM Hf He) as (y & Hy & Hfy).
  unfold validate_field in Hfy. rewrite Hl in Hfy. apply at_loc_Ok in Hfy.
  assert (validate (annotation f) (VList l) =
          rmap VList (validate_items (validate t) 0 l)) as Heq
    by (by destruct Ht as [-> | ->]).
  rewrite Heq in Hfy. apply rmap_Ok in Hfy as (l' & Hl' & ->).
  exists l'. split; [done|]. by eapply validate_items_Ok.
Qed.

Lemma list_field_hydration_witness :
  ∃ l', attr memory_two "messages" = Some (VList l') ∧
        Forall2 (λ x y, validate (T Message) x = Ok y)
          [VDict message_without_content; VDict message_without_role] l'.
Proof.
  apply (list_field_hydration Memory
           (Field "messages" (TList (T Message)) (Default (VList [])))
           (T Message) memory_two_dicts
           [VDict message_without_content; VDict message_without_role]
           memory_two).
  - do 3 apply list_elem_of_further. apply list_elem_of_here.
  - apply list_elem_of_here.
  - by left.
  - vm_compute; reflexivity.
  - vm_compute; reflexivity.
Defined.

Lemma Forall2_elem_r {A B} (P : A → B → Prop) l l' y :
  Forall2 P l l' → y ∈ l' → ∃ x, P x y.
Proof.
  induction 1 as [|x y' l l' Hxy _ IH]; intros Hy.
  - by apply elem_of_nil in Hy.
  - apply elem_of_cons in Hy as [->|Hy]; eauto.
Qed.

(** What the validator of a model class lets through is an instance of the
    class. *)
Lemma validate_model_output n fs x y :
  validate (TModel n fs) x = Ok y → ∃ m, y = VModel n m.
Proof.
  intros Hx.
  destruct x as [| | | | | | |c a]; cbn [validate not_none] in Hx;
    try done;
    try (apply bind_Ok in Hx as (? & _ & (? & _ & ->)%rmap_Ok); by eauto).
  destruct (String.eqb c n) eqn:Hc.
  - apply String.eqb_eq in Hc. simplify_eq. eauto.
  - apply rmap_Ok in Hx as (? & _ & ->). eauto.
Qed.

(** X17.  Hydrating the messages first and passing the resulting Message
    objects is the same construction as passing the message mappings: for a
    list [l] of given messages and the list [l'] of what the Message class
    makes of each, Memory gives the same outcome on [l'] as on [l]. *)
Theorem messages_as_objects (data : gmap string value) (l l' : list value) :
  data !! "messages" = Some (VList l) →
  Forall2 (λ x y, validate (T Message) x = Ok y) l l' →
  construct Memory (<["messages" := VList l']> data) = construct Memory data.
Proof.
  intros Hl HF. unfold construct. f_equal.
  apply validate_model_ext. intros g Hg.
  apply elem_of_cons in Hg as [->|Hg].
  - unfold validate_field. cbn [fname annotation].
    rewrite lookup_insert_eq, Hl, !validate_TList. simpl.
    rewrite (validate_items_Forall2 _ _ l l' HF).
    rewrite (validate_items_Forall2 _ _ l' l'); [done|].
    apply Forall_Forall2_diag, Forall_forall. intros y Hy.
    destruct (Forall2_elem_r _ _ _ _ HF Hy) as (x & Hx).
    apply validate_model_output in Hx as (m & ->). reflexivity.
  - apply validate_field_lookup_ext.
    repeat (apply elem_of_cons in Hg as [->|Hg];
            [by rewrite lookup_insert_ne|]).
    by apply elem_of_nil in Hg.
Qed.

Lemma messages_as_objects_witness :
  construct Memory
    (<["messages" := VList [msg "user" "Content is required";
                            msg "A role is required" "hi"]]>
       memory_two_dicts)
  = construct Memory memory_two_dicts.
Proof.
  apply (messages_as_objects memory_two_dicts
           [VDict message_without_content; VDict message_without_role]).
  - vm_compute; reflexivity.
  - repeat constructor; vm_compute; reflexivity.
Defined.

(** *** Errors *)

Lemma at_loc_Invalid {A} i (r : outcome A) es :
  at_loc i r = Invalid es → Forall (λ err, ∃ rest, err.1 = i :: rest) es.
Proof.
  destruct r as [|es'|]; simpl; intros; simplify_eq.
  apply Forall_fmap, Forall_forall. intros err _. simpl. eauto.
Qed.

Lemma validate_field_Invalid vt f data es :
  validate_field vt f data = Invalid es →
  Forall (λ err, ∃ rest, err.1 = LName (fname f) :: rest) es.
Proof.
  unfold validate_field. intros H.
  repeat case_match; simplify_eq; by eapply at_loc_Invalid.
Qed.

Lemma located_weaken (g : field) (fields : list field) (es : list error) :
  Forall (λ err : error, ∃ f rest, f ∈ fields ∧
                           err.1 = LName (fname f) :: rest) es →
  Forall (λ err : error, ∃ f rest, f ∈ g :: fields ∧
                           err.1 = LName (fname f) :: rest) es.
Proof.
  intros H. eapply Forall_impl; [exact H|].
  intros err (f & rest & Hf & Herr).
  exists f, rest. split; [by apply list_elem_of_further|done].
Qed.

Lemma validate_model_Invalid vt fields data (errs : list error) :
  validate_model vt fields data = Invalid errs →
  Forall (λ err : error, ∃ f rest, f ∈ fields ∧
                           err.1 = LName (fname f) :: rest) errs.
Proof.
  unfold validate_model. revert errs.
  induction fields as [|g fields IH]; intros errs; simpl; [done|].
  intros Hb.
  destruct (validate_field vt g data) as [x|e1|] eqn:Hg;
    destruct (foldr _ _ fields) as [m|e2|] eqn:Hrest;
    simpl in Hb; simplify_eq.
  - by apply located_weaken, IH.
  - eapply Forall_impl; [by eapply validate_field_Invalid|].
    intros err (rest & Herr). exists g, rest.
    split; [apply list_elem_of_here|done].
  - apply Forall_app_2.
    + eapply Forall_impl; [by eapply validate_field_Invalid|].
      intros err (rest & Herr). exists g, rest.
      split; [apply list_elem_of_here|done].
    + by apply located_weaken, IH.
Qed.

(** X14.  Every error of a failed construction is located under a declared
    field of the class: its location starts with the name of that field. *)
Theorem errors_name_declared_field (M : model) (data : gmap string value)
    (errs : list error) :
  M ∈ entities →
  construct M data = Invalid errs →
  Forall (λ err : error, ∃ f rest, f ∈ model_fields M ∧
                           err.1 = LName (fname f) :: rest) errs.
Proof.
  intros _. unfold construct.
  destruct (validate_model validate (model_fields M) data) as [|es|] eqn:Hm;
    simpl; intros; simplify_eq.
  by apply (validate_model_Invalid validate _ data).
Qed.

Lemma errors_name_declared_field_witness :
  Forall (λ err : error,
            ∃ f rest, f ∈ model_fields Memory ∧
                      err.1 = LName (fname f) :: rest)
    [([LName "messages"; LIndex 0], NoneIsNotAllowedError);
     ([LName "messages"; LIndex 1], DictError)].
Proof.
  apply (errors_name_declared_field Memory memory_bad_items).
  - do 3 apply list_elem_of_further. apply list_elem_of_here.
  - vm_compute; reflexivity.
Defined.

(** *** Serialisation *)

(** X15.  Serialisation loses nothing: two different valid instances of a
    class have different serialisations. *)
Theorem serialisation_injective (M : model) (e1 e2 : instance) :
  M ∈ entities →
  valid_instance M e1 = true →
  valid_instance M e2 = true →
  e1 ≠ e2 →
  dict e1 ≠ dict e2.
Proof.
  intros _ H1%construct_dict H2%construct_dict Hne Heq.
  rewrite Heq in H1. congruence.
Qed.

Lemma serialisation_injective_witness : dict memory3 ≠ dict memory_two.
Proof.
  apply (serialisation_injective Memory memory3 memory_two).
  - do 3 apply list_elem_of_further. apply list_elem_of_here.
  - vm_compute; reflexivity.
  - vm_compute; reflexivity.
  - intros H. apply (f_equal (λ e, attrs e !! "token_count")) in H.
    vm_compute in H. discriminate H.
Defined.

(** X18.  The [to_dict] of a Summary, a Message, a Document and a
    DocumentCollection holds no model instance at any depth, whatever the
    instance holds, and serialising its values again changes nothing. *)
Theorem to_dict_plain (self : instance) :
  Forall (λ to_dict : instance → gmap string value,
            plain_map (to_dict self) = true ∧
            get_value <$> to_dict self = to_dict self)
    [Summary_to_dict; Message_to_dict; Document_to_dict;
     DocumentCollection_to_dict].
Proof.
  assert (plain_map (dict self) = true ∧
          get_value <$> dict self = dict self) as H.
  { assert (map_Forall (λ _ x, plain x = true) (dict self)) as Hp.
    { unfold dict. apply map_Forall_fmap. intros k x _.
      apply get_value_plain. }
    split; [by apply plain_map_Forall|].
    apply map_eq. intros k. rewrite lookup_fmap.
    destruct (dict self !! k) as [x|] eqn:Hk; [|done]. simpl.
    f_equal. apply get_value_id, (Hp k x Hk). }
  repeat constructor; apply H.
Qed.

(** *** Coercion *)

(** X16.  An integer given for a field annotated [str] or [Optional[str]]
    is stored as its decimal text. *)
Theorem int_for_str_field (M : model) (f : field)
    (data : gmap string value) (z : Z) (e : instance) :
  M ∈ entities →
  f ∈ model_fields M →
  annotation f = TStr ∨ annotation f = TOptional TStr →
  data !! fname f = Some (VInt z) →
  construct M data = Ok e →
  attr e (fname f) = Some (VStr (pretty z)).
Proof.
  intros HM%entities_distinct Hf Ht Hz He.
  destruct (construct_attr M data e f HM Hf He) as (y & Hy & Hfy).
  unfold validate_field in Hfy. rewrite Hz in Hfy. apply at_loc_Ok in Hfy.
  assert (validate (annotation f) (VInt z) =
          rmap VStr (catch StrError (str_of_int z))) as Heq
    by (by destruct Ht as [-> | ->]).
  rewrite Heq in Hfy.
  apply rmap_Ok in Hfy as (s & Hs%catch_Ok & ->).
  unfold str_of_int in Hs. case_match; by simplify_eq.
Qed.

Lemma int_for_str_field_witness :
  ∃ e, construct Session session_numbered = Ok e ∧
       attr e "session_id" = Some (VStr "42").
Proof.
  eexists. split; [vm_compute; reflexivity|].
  apply (int_for_str_field Session (Field "session_id" TStr Undefined)
           session_numbered 42).
  - apply list_elem_of_here.
  - do 4 apply list_elem_of_further. apply list_elem_of_here.
  - by left.
  - vm_compute; reflexivity.
  - vm_compute; reflexivity.
Defined.

(** *** Values of the wrong kind *)





End Extra.
